(** * The diagnosis renderer of [diagnose_and_generate_html.py]

    A shallow embedding of [format_diagnosis_to_html], the only function of
    the repository with logic of its own: it turns the Markdown-like text
    returned by the palm-reading model into an HTML fragment made of
    [<p>], [<ul>], [<li>] and [<b>] elements.

    A Python [str] is a sequence of Unicode code points; it is modelled as
    a list of code points, so that [str.strip()] sees the same white space
    as CPython does (the ideographic space U+3000 included). *)

From Equations Require Import Equations.
From Stdlib Require Import String Ascii List NArith Bool Arith Lia.
Import ListNotations.
Local Open Scope N_scope.

(** ** Python strings *)

Definition char := N.
Definition pystr := list char.

(** A literal of the source, as the code points of its characters. *)
Definition str (s : string) : pystr := map N_of_ascii (list_ascii_of_string s).

Definition NL : char := 10.
Definition SPACE : char := 32.
Definition STAR : char := 42.
Definition DASH : char := 45.

(** [str.isspace] on one code point: CPython's [_PyUnicode_IsWhitespace]. *)
Definition isspace (c : char) : bool :=
  ((9 <=? c) && (c <=? 13)) || ((28 <=? c) && (c <=? 32))
  || (c =? 133) || (c =? 160) || (c =? 5760)
  || ((8192 <=? c) && (c <=? 8202))
  || (c =? 8232) || (c =? 8233) || (c =? 8239) || (c =? 8287)
  || (c =? 12288).

(** [s.lstrip()] *)
Fixpoint lstrip (s : pystr) : pystr :=
  match s with
  | [] => []
  | c :: t => if isspace c then lstrip t else s
  end.

(** [s.rstrip()] *)
Definition rstrip (s : pystr) : pystr := rev (lstrip (rev s)).

(** [s.strip()]: white space removed at both ends. *)
Definition strip (s : pystr) : pystr := rstrip (lstrip s).

(** [s.split(sep)] for a separator of one character: every occurrence
    splits, and the result is never the empty list ([''.split('\n')] is
    [['']]). *)
Fixpoint split (sep : char) (s : pystr) : list pystr :=
  match s with
  | [] => [[]]
  | c :: t =>
      if c =? sep then [] :: split sep t
      else match split sep t with
           | l :: ls => (c :: l) :: ls
           | [] => [[c]]
           end
  end.

(** [sep.join(parts)] *)
Fixpoint join (sep : pystr) (parts : list pystr) : pystr :=
  match parts with
  | [] => []
  | [p] => p
  | p :: ps => p ++ sep ++ join sep ps
  end.

(** [s.startswith(prefix)] *)
Fixpoint startswith (s prefix : pystr) {struct prefix} : bool :=
  match prefix with
  | [] => true
  | p :: ps =>
      match s with
      | [] => false
      | c :: cs => (c =? p) && startswith cs ps
      end
  end.

(** ** The regular expression [\*\*(.*?)\*\*]

    [lazy_close s] runs the tail [(.*?)\*\*] of the pattern at the start of
    [s]: the group takes as few characters as possible, and [.] refuses a
    newline.  The result is the group and what follows the match. *)
Fixpoint lazy_close (s : pystr) : option (pystr * pystr) :=
  match s with
  | [] => None
  | c :: t =>
      match t with
      | [] => None
      | c' :: r =>
          if (c =? STAR) && (c' =? STAR) then Some ([], r)
          else if c =? NL then None
          else match lazy_close t with
               | Some (g, r') => Some (c :: g, r')
               | None => None
               end
      end
  end.

(** The whole pattern anchored at the start of [s]. *)
Definition match_at (s : pystr) : option (pystr * pystr) :=
  match s with
  | c :: c' :: t => if (c =? STAR) && (c' =? STAR) then lazy_close t else None
  | _ => None
  end.

Definition B_OPEN : pystr := Eval cbv in str "<b>".
Definition B_CLOSE : pystr := Eval cbv in str "</b>".

Definition inspect {A : Type} (a : A) : {b : A | a = b} := exist _ a eq_refl.

(** [re.sub(r'\*\*(.*?)\*\*', r'<b>\1</b>', s)]: the scan goes left to
    right; where the pattern matches, the match is replaced and the scan
    resumes after it; elsewhere one character is copied.  The pattern
    never matches the empty string, so each step consumes input. *)
Equations? re_sub_bold (s : pystr) : pystr by wf (List.length s) lt :=
  re_sub_bold [] := [];
  re_sub_bold (c :: t) with inspect (match_at (c :: t)) := {
    | exist _ (Some (g, r)) H := B_OPEN ++ g ++ B_CLOSE ++ re_sub_bold r;
    | exist _ None _ := c :: re_sub_bold t }.
Proof.
  assert (shorter : forall u g' r',
             lazy_close u = Some (g', r') -> (List.length r' < List.length u)%nat).
  { induction u as [|a u IH]; intros g' r'; simpl; [discriminate|].
    destruct u as [|a' u']; [discriminate|].
    destruct ((a =? STAR) && (a' =? STAR)).
    - intros [= <- <-]. simpl. lia.
    - destruct (a =? NL); [discriminate|].
      destruct (lazy_close (a' :: u')) as [[g0 r0]|]; [|discriminate].
      intros [= <- <-]. specialize (IH _ _ eq_refl). simpl in IH |- *. lia. }
  destruct t as [|c' t']; [discriminate|].
  destruct ((c =? STAR) && (c' =? STAR)); [|discriminate].
  apply shorter in H. simpl. lia.
Qed.

(** ** The renderer *)

Definition UL_OPEN : pystr := Eval cbv in str "<ul>".
Definition UL_CLOSE : pystr := Eval cbv in str "</ul>".
Definition LI_OPEN : pystr := Eval cbv in str "<li>".
Definition LI_CLOSE : pystr := Eval cbv in str "</li>".
Definition P_OPEN : pystr := Eval cbv in str "<p>".
Definition P_CLOSE : pystr := Eval cbv in str "</p>".
Definition BULLET_DASH : pystr := Eval cbv in str "- ".
Definition BULLET_STAR : pystr := Eval cbv in str "* ".

(** The two locals the loop updates. *)
Record state : Type := mkState { html_lines : list pystr; in_list : bool }.

Definition init : state := mkState [] false.

(** [html_lines.append(b)] *)
Definition append (st : state) (b : pystr) : state :=
  mkState (html_lines st ++ [b]) (in_list st).

Definition set_in_list (st : state) (b : bool) : state :=
  mkState (html_lines st) b.

(** The body of [for line in lines]. *)
Definition process_line (st : state) (line : pystr) : state :=
  let stripped_line := strip line in
  match stripped_line with
  | [] =>
      if in_list st then set_in_list (append st UL_CLOSE) false else st
  | _ :: _ =>
      let processed_line := re_sub_bold stripped_line in
      if startswith processed_line BULLET_DASH
         || startswith processed_line BULLET_STAR
      then
        let st1 :=
          if negb (in_list st) then set_in_list (append st UL_OPEN) true
          else st in
        let list_item_content := strip (skipn 2 processed_line) in
        append st1 (LI_OPEN ++ list_item_content ++ LI_CLOSE)
      else
        let st1 :=
          if in_list st then set_in_list (append st UL_CLOSE) false
          else st in
        append st1 (P_OPEN ++ processed_line ++ P_CLOSE)
  end.

(** The loop over the lines, from a given state. *)
Definition run_lines (st : state) (lines : list pystr) : state :=
  fold_left process_line lines st.

(** The statement after the loop: the close marker is appended, the flag is
    not assigned. *)
Definition flush (st : state) : state :=
  if in_list st then append st UL_CLOSE else st.

(** The state at the [return]. *)
Definition final_state (diagnosis_text : pystr) : state :=
  let lines := split NL (strip diagnosis_text) in
  flush (run_lines init lines).

Definition format_diagnosis_to_html (diagnosis_text : pystr) : pystr :=
  join [NL] (html_lines (final_state diagnosis_text)).

(** * The vocabulary of the properties *)

(** ** Lines and what they append *)

(** A text made of white space only. *)
Definition all_space (s : pystr) : bool := forallb isspace s.

(** The three kinds of line of the data model. *)
Inductive line_kind : Type := Blank | ListItem | Paragraph.

(** The branch the loop body takes on a line: the emptiness test is on the
    stripped line, the bullet test on the line after the substitution. *)
Definition classify (line : pystr) : line_kind :=
  let stripped_line := strip line in
  match stripped_line with
  | [] => Blank
  | _ :: _ =>
      let processed_line := re_sub_bold stripped_line in
      if startswith processed_line BULLET_DASH
         || startswith processed_line BULLET_STAR
      then ListItem else Paragraph
  end.

(** The classification as the data model words it: on the trimmed form of
    the raw line alone. *)
Definition spec_classify (line : pystr) : line_kind :=
  let trimmed := strip line in
  match trimmed with
  | [] => Blank
  | _ :: _ =>
      if startswith trimmed BULLET_DASH || startswith trimmed BULLET_STAR
      then ListItem else Paragraph
  end.

(** The content of the [<li>] element the loop body builds. *)
Definition list_item_content (line : pystr) : pystr :=
  strip (skipn 2 (re_sub_bold (strip line))).

(** The [<li>] element of a list-item line. *)
Definition li_block (line : pystr) : pystr :=
  LI_OPEN ++ list_item_content line ++ LI_CLOSE.

(** The [<p>] element of a paragraph line. *)
Definition p_block (line : pystr) : pystr :=
  P_OPEN ++ re_sub_bold (strip line) ++ P_CLOSE.

(** What a line adds to [html_lines] when the flag is [b]. *)
Definition emitted (b : bool) (line : pystr) : list pystr :=
  match classify line with
  | Blank => if b then [UL_CLOSE] else []
  | ListItem => (if b then [] else [UL_OPEN]) ++ [li_block line]
  | Paragraph => (if b then [UL_CLOSE] else []) ++ [p_block line]
  end.

(** The flag a line leaves. *)
Definition next_flag (line : pystr) : bool :=
  match classify line with ListItem => true | _ => false end.

(** What the loop appends over [lines], entered with the flag [b]. *)
Fixpoint loop_blocks (b : bool) (lines : list pystr) : list pystr :=
  match lines with
  | [] => []
  | l :: ls => emitted b l ++ loop_blocks (next_flag l) ls
  end.

(** The flag when the loop leaves [lines], entered with the flag [b]. *)
Fixpoint last_flag (b : bool) (lines : list pystr) : bool :=
  match lines with
  | [] => b
  | l :: ls => last_flag (next_flag l) ls
  end.

(** The blocks at the [return], for the lines the loop ran over. *)
Definition render (lines : list pystr) : list pystr :=
  html_lines (flush (run_lines init lines)).

(** ** The output as blocks

    The output is the blocks joined by newlines.  The text of a line is
    copied without escaping, so a marker is a whole block of the output,
    not any occurrence of its characters: the paragraph line [<ul>] gives
    the block [<p><ul></p>], which is a paragraph and no marker. *)

(** The output read back: its lines, none for the empty output. *)
Definition output_blocks (out : pystr) : list pystr :=
  match out with
  | [] => []
  | _ :: _ => split NL out
  end.

(** What the loop appends is never empty and holds no newline. *)
Definition is_block (b : pystr) : Prop := b <> [] /\ ~ In NL b.

(** ** The substitution as the contract words it *)

(** The leftmost [**] of [s]: what precedes it and what follows it. *)
Fixpoint find_delim (s : pystr) : option (pystr * pystr) :=
  match s with
  | [] => None
  | c :: t =>
      match t with
      | [] => None
      | c' :: r =>
          if (c =? STAR) && (c' =? STAR) then Some ([], r)
          else match find_delim t with
               | Some (pre, r') => Some (c :: pre, r')
               | None => None
               end
      end
  end.

(** The first span: the first [**] opens it, the next [**] after it closes
    it.  The result is the text before the span, the text inside, and the
    text after. *)
Definition find_span (s : pystr) : option (pystr * pystr * pystr) :=
  match find_delim s with
  | None => None
  | Some (pre, r1) =>
      match find_delim r1 with
      | None => None
      | Some (body, r2) => Some (pre, body, r2)
      end
  end.

(** Every span, left to right, becomes a bold element; what is around the
    spans is kept, and so is a delimiter that has no partner. *)
Equations? spec_bold (s : pystr) : pystr by wf (List.length s) lt :=
  spec_bold s with inspect (find_span s) := {
    | exist _ (Some (pre, body, rest)) H :=
        pre ++ B_OPEN ++ body ++ B_CLOSE ++ spec_bold rest;
    | exist _ None _ := s }.
Proof.
  assert (shorter : forall u p r,
             find_delim u = Some (p, r) -> (List.length r < List.length u)%nat).
  { induction u as [|a u IH]; intros p r; simpl; [discriminate|].
    destruct u as [|a' u']; [discriminate|].
    destruct ((a =? STAR) && (a' =? STAR)).
    - intros [= <- <-]. simpl. lia.
    - destruct (find_delim (a' :: u')) as [[p0 r0]|]; [|discriminate].
      intros [= <- <-]. specialize (IH _ _ eq_refl). simpl in IH |- *. lia. }
  unfold find_span in H.
  destruct (find_delim s) as [[p r1]|] eqn:E1; [|discriminate].
  destruct (find_delim r1) as [[b r2]|] eqn:E2; [|discriminate].
  injection H as <- <- <-.
  apply shorter in E1, E2. lia.
Qed.

(** ** Markers and nesting *)

Fixpoint pystr_eqb (a b : pystr) : bool :=
  match a, b with
  | [], [] => true
  | x :: a', y :: b' => (x =? y) && pystr_eqb a' b'
  | _, _ => false
  end.

(** How many blocks are the marker [m]. *)
Definition count_block (m : pystr) (blocks : list pystr) : nat :=
  List.length (filter (pystr_eqb m) blocks).

(** The four blocks of the output ([<ul>], [</ul>], a [<li>] element, a
    [<p>] element), and anything else. *)
Inductive block_kind : Type := KOpen | KClose | KItem | KPara | KOther.

Definition block_kind_of (b : pystr) : block_kind :=
  if pystr_eqb UL_OPEN b then KOpen
  else if pystr_eqb UL_CLOSE b then KClose
  else if startswith b LI_OPEN then KItem
  else if startswith b P_OPEN then KPara
  else KOther.

(** The blocks are well nested from depth [inside] (a list is open or not):
    [<ul>] only outside a list, [</ul>] and [<li>] only inside, [<p>] only
    outside, nothing else, and no list left open at the end. *)
Fixpoint well_nested (inside : bool) (blocks : list pystr) : bool :=
  match blocks with
  | [] => negb inside
  | b :: bs =>
      match block_kind_of b, inside with
      | KOpen, false => well_nested true bs
      | KClose, true => well_nested false bs
      | KItem, true => well_nested true bs
      | KPara, false => well_nested false bs
      | _, _ => false
      end
  end.

(** ** Runs of list items *)

Definition all_items (lines : list pystr) : Prop :=
  Forall (fun l => classify l = ListItem) lines.

(** The first line, if there is one, is not a list item. *)
Definition starts_outside (lines : list pystr) : Prop :=
  match lines with
  | [] => True
  | l :: _ => classify l <> ListItem
  end.

(** The last line, if there is one, is not a list item. *)
Definition ends_outside (lines : list pystr) : Prop :=
  starts_outside (rev lines).

(** The content of a list item as the round-trip property words it: the
    trimmed line without its 2-character bullet prefix, spans converted,
    nothing else. *)
Definition spec_list_item_content (line : pystr) : pystr :=
  spec_bold (skipn 2 (strip line)).

(** ** Beyond the list markers *)

(** The blocks from the flag [b] on: what the loop appends over [lines],
    then what the statement after the loop appends. *)
Definition render_from (b : bool) (lines : list pystr) : list pystr :=
  loop_blocks b lines ++ (if last_flag b lines then [UL_CLOSE] else []).

(** Lines of white space only. *)
Definition all_blank (lines : list pystr) : Prop :=
  Forall (fun l => all_space l = true) lines.

(** A block that is one of the two list markers. *)
Definition is_marker (b : pystr) : bool :=
  pystr_eqb UL_OPEN b || pystr_eqb UL_CLOSE b.

(** A line that is not blank. *)
Definition non_blank (line : pystr) : bool :=
  match classify line with Blank => false | _ => true end.

(** The element a line that is not blank appends. *)
Definition element_of (line : pystr) : pystr :=
  match classify line with
  | ListItem => li_block line
  | _ => p_block line
  end.

(** A line written out: white space, a bullet ([-] or [*]), one space,
    and a rest that is not white space only. *)
Definition bullet_line (line : pystr) : Prop :=
  exists w rest,
    all_space w = true /\ all_space rest = false /\
    (line = w ++ 45 :: 32 :: rest \/ line = w ++ 42 :: 32 :: rest).

(** The nesting read on the text of the output, tag by tag wherever the
    characters of a tag occur: [<ul>] only at depth 0, [</ul>] and [<li>]
    only at depth 1, [<p>] only at depth 0, and depth 0 at the end. *)
Fixpoint text_well_nested (depth : nat) (out : pystr) : bool :=
  match out with
  | [] => Nat.eqb depth 0
  | _ :: t =>
      if startswith out UL_OPEN then Nat.eqb depth 0 && text_well_nested 1 t
      else if startswith out UL_CLOSE then Nat.eqb depth 1 && text_well_nested 0 t
      else if startswith out LI_OPEN then Nat.eqb depth 1 && text_well_nested depth t
      else if startswith out P_OPEN then Nat.eqb depth 0 && text_well_nested depth t
      else text_well_nested depth t
  end.

(** The characters of the tags the renderer writes. *)
Definition TAG_CHARS : pystr := Eval cbv in str "<>/ulipb".

(** Where a reader of the blocks is: outside a list, just after [<ul>],
    or after an item of the open list. *)
Inductive list_pos : Type := Outside | Opened | AfterItem.

Definition pos_of_flag (b : bool) : list_pos :=
  if b then AfterItem else Outside.

(** Well nested, and no list without an item: [</ul>] only after an item,
    [<li>] only after [<ul>] or another item. *)
Fixpoint lists_have_items (pos : list_pos) (blocks : list pystr) : bool :=
  match blocks with
  | [] => match pos with Outside => true | _ => false end
  | b :: bs =>
      match block_kind_of b, pos with
      | KOpen, Outside => lists_have_items Opened bs
      | KItem, Opened => lists_have_items AfterItem bs
      | KItem, AfterItem => lists_have_items AfterItem bs
      | KClose, AfterItem => lists_have_items Outside bs
      | KPara, Outside => lists_have_items Outside bs
      | _, _ => false
      end
  end.

(** * Theory *)

(** A character is not in a literal: [H] is the membership, refuted
    character by character. *)
Ltac not_in_literal H :=
  vm_compute in H; repeat (destruct H as [H|H]; [discriminate H|]); destruct H.

(** ** The substitution, one step at a time *)

Lemma re_sub_bold_nil : re_sub_bold [] = [].
Proof. now simp re_sub_bold. Qed.

Lemma re_sub_bold_cons (c : char) (t : pystr) :
  re_sub_bold (c :: t) =
  match match_at (c :: t) with
  | Some (g, r) => B_OPEN ++ g ++ B_CLOSE ++ re_sub_bold r
  | None => c :: re_sub_bold t
  end.
Proof.
  rewrite re_sub_bold_equation_2. unfold inspect.
  generalize (@eq_refl _ (match_at (c :: t))).
  generalize (match_at (c :: t)) at 2 4 5.
  intros [[g r]|] e; reflexivity.
Qed.

(** ** White space and [strip] *)

Lemma all_space_app (s t : pystr) :
  all_space (s ++ t) = all_space s && all_space t.
Proof. apply forallb_app. Qed.

Lemma all_space_rev (s : pystr) : all_space (rev s) = all_space s.
Proof.
  induction s as [|c t IH]; [reflexivity|].
  simpl. rewrite all_space_app, IH. simpl.
  rewrite andb_true_r. apply andb_comm.
Qed.

Lemma lstrip_space_app (w s : pystr) :
  all_space w = true -> lstrip (w ++ s) = lstrip s.
Proof.
  induction w as [|c w IH]; simpl; [reflexivity|].
  intros H. apply andb_true_iff in H as [Hc Hw].
  rewrite Hc. now apply IH.
Qed.

Lemma lstrip_all_space (s : pystr) : all_space s = true -> lstrip s = [].
Proof.
  intros H. rewrite <- (app_nil_r s). now rewrite lstrip_space_app.
Qed.

Lemma lstrip_nil_space (s : pystr) : lstrip s = [] -> all_space s = true.
Proof.
  induction s as [|c t IH]; simpl; [reflexivity|].
  destruct (isspace c); [exact IH | discriminate].
Qed.

Lemma lstrip_app (s t : pystr) : lstrip s <> [] -> lstrip (s ++ t) = lstrip s ++ t.
Proof.
  induction s as [|c s IH]; simpl; [congruence|].
  destruct (isspace c); [exact IH | reflexivity].
Qed.

Lemma lstrip_decomp (s : pystr) :
  exists w, all_space w = true /\ s = w ++ lstrip s.
Proof.
  induction s as [|c s [w [Hw E]]]; simpl.
  - now exists [].
  - destruct (isspace c) eqn:Hc.
    + exists (c :: w). simpl. rewrite Hc, Hw. split; [reflexivity | congruence].
    + now exists [].
Qed.

(** What [lstrip] returns does not start with white space. *)
Lemma lstrip_head (s : pystr) (c : char) (t : pystr) :
  lstrip s = c :: t -> isspace c = false.
Proof.
  induction s as [|a s IH]; simpl; [discriminate|].
  destruct (isspace a) eqn:Ha; [exact IH|].
  now intros [= <- _].
Qed.

Lemma rstrip_app_space (s w : pystr) :
  all_space w = true -> rstrip (s ++ w) = rstrip s.
Proof.
  intros H. unfold rstrip. rewrite rev_app_distr, lstrip_space_app; [reflexivity|].
  now rewrite all_space_rev.
Qed.

Lemma rstrip_decomp (s : pystr) :
  exists w, all_space w = true /\ s = rstrip s ++ w.
Proof.
  destruct (lstrip_decomp (rev s)) as [w [Hw E]].
  exists (rev w). rewrite all_space_rev. split; [exact Hw|].
  unfold rstrip. rewrite <- rev_app_distr, <- E. symmetry. apply rev_involutive.
Qed.

Lemma rstrip_nil_space (s : pystr) : rstrip s = [] -> all_space s = true.
Proof.
  unfold rstrip. intros H. rewrite <- all_space_rev.
  apply lstrip_nil_space. rewrite <- (rev_involutive (lstrip (rev s))), H. reflexivity.
Qed.

Lemma strip_all_space (s : pystr) : all_space s = true -> strip s = [].
Proof. intros H. unfold strip. now rewrite lstrip_all_space. Qed.

Lemma strip_nil_space (s : pystr) : strip s = [] -> all_space s = true.
Proof.
  unfold strip. intros H. apply rstrip_nil_space in H.
  destruct (lstrip s) as [|c t] eqn:E; [now apply lstrip_nil_space|].
  apply lstrip_head in E. simpl in H. rewrite E in H. discriminate.
Qed.

(** White space around a text does not change what [strip] returns. *)
Lemma strip_surround (w1 s w2 : pystr) :
  all_space w1 = true -> all_space w2 = true ->
  strip (w1 ++ s ++ w2) = strip s.
Proof.
  intros H1 H2. unfold strip. rewrite lstrip_space_app by exact H1.
  destruct (lstrip s) as [|c t] eqn:E.
  - rewrite lstrip_all_space; [reflexivity|].
    rewrite all_space_app, H2, (lstrip_nil_space _ E). reflexivity.
  - rewrite lstrip_app by (rewrite E; discriminate).
    rewrite E. now apply rstrip_app_space.
Qed.

Lemma strip_decomp (s : pystr) :
  exists w1 w2, all_space w1 = true /\ all_space w2 = true /\
                s = w1 ++ strip s ++ w2.
Proof.
  destruct (lstrip_decomp s) as [w1 [H1 E1]].
  destruct (rstrip_decomp (lstrip s)) as [w2 [H2 E2]].
  exists w1, w2. unfold strip. now rewrite <- E2.
Qed.

Lemma strip_idem (s : pystr) : strip (strip s) = strip s.
Proof.
  destruct (strip_decomp s) as [w1 [w2 [H1 [H2 E]]]].
  rewrite E at 2. symmetry. now apply strip_surround.
Qed.

(** ** The substitution and the first two characters *)

Lemma match_at_inv (s g r : pystr) :
  match_at s = Some (g, r) ->
  exists t, s = STAR :: STAR :: t /\ lazy_close t = Some (g, r).
Proof.
  destruct s as [|c [|c' t]]; simpl; try discriminate.
  destruct (c =? STAR) eqn:E1; [|discriminate].
  destruct (c' =? STAR) eqn:E2; [|discriminate].
  apply N.eqb_eq in E1, E2. subst. simpl. intros H. now exists t.
Qed.

Lemma match_at_head (c : char) (t : pystr) :
  (c =? STAR) = false -> match_at (c :: t) = None.
Proof. intros H. destruct t; simpl; [reflexivity|]. now rewrite H. Qed.

Lemma match_at_second (c c' : char) (t : pystr) :
  (c' =? STAR) = false -> match_at (c :: c' :: t) = None.
Proof. intros H. simpl. now rewrite H, andb_false_r. Qed.

(** A match cannot start on a character that is not an asterisk, nor on
    one that is followed by something else than an asterisk. *)
Lemma re_sub_bold_skip2 (c c' : char) (t : pystr) :
  (c' =? STAR) = false ->
  re_sub_bold (c :: c' :: t) = c :: c' :: re_sub_bold t.
Proof.
  intros H. rewrite re_sub_bold_cons, match_at_second by exact H.
  now rewrite re_sub_bold_cons, match_at_head by exact H.
Qed.

(** The substitution neither creates nor destroys a bullet prefix. *)
Lemma startswith_re_sub_bold (p : char) (s : pystr) :
  (60 =? p) = false ->
  startswith (re_sub_bold s) [p; SPACE] = startswith s [p; SPACE].
Proof.
  intros Hp. destruct s as [|c [|c' t]].
  - now rewrite re_sub_bold_nil.
  - rewrite re_sub_bold_cons. simpl. now rewrite re_sub_bold_nil.
  - rewrite re_sub_bold_cons.
    destruct (match_at (c :: c' :: t)) as [[g r]|] eqn:M.
    + apply match_at_inv in M as [t' [[= -> -> _] _]].
      unfold B_OPEN. cbn [app startswith]. rewrite Hp.
      change (STAR =? SPACE) with false. cbn [andb]. now rewrite andb_false_r.
    + rewrite re_sub_bold_cons.
      destruct (match_at (c' :: t)) as [[g r]|] eqn:M'.
      * apply match_at_inv in M' as [t' [[= -> _] _]].
        unfold B_OPEN. cbn [app startswith].
        change (60 =? SPACE) with false. change (STAR =? SPACE) with false.
        cbn [andb]. now rewrite !andb_false_r.
      * cbn [startswith]. reflexivity.
Qed.

(** ** The loop body, kind by kind *)

Lemma process_line_blank (st : state) (line : pystr) :
  classify line = Blank ->
  process_line st line =
  if in_list st then mkState (html_lines st ++ [UL_CLOSE]) false else st.
Proof.
  unfold classify, process_line.
  destruct (strip line); [reflexivity|].
  destruct (_ || _); discriminate.
Qed.

Lemma process_line_item (st : state) (line : pystr) :
  classify line = ListItem ->
  process_line st line =
  mkState (html_lines st ++ (if in_list st then [] else [UL_OPEN]) ++ [li_block line])
          true.
Proof.
  unfold classify, process_line, li_block, list_item_content.
  destruct (strip line) as [|c t]; [discriminate|].
  destruct (_ || _); [|discriminate].
  intros _. destruct st as [h [|]]; unfold append; simpl; [reflexivity|].
  now rewrite <- app_assoc.
Qed.

Lemma process_line_para (st : state) (line : pystr) :
  classify line = Paragraph ->
  process_line st line =
  mkState (html_lines st ++ (if in_list st then [UL_CLOSE] else []) ++ [p_block line])
          false.
Proof.
  unfold classify, process_line, p_block.
  destruct (strip line) as [|c t]; [discriminate|].
  destruct (_ || _); [discriminate|].
  intros _. destruct st as [h [|]]; unfold append; simpl; [|reflexivity].
  now rewrite <- app_assoc.
Qed.

(** ** The loop, line by line *)

Lemma process_line_step (st : state) (line : pystr) :
  process_line st line =
  mkState (html_lines st ++ emitted (in_list st) line) (next_flag line).
Proof.
  unfold emitted, next_flag. destruct (classify line) eqn:K.
  - rewrite process_line_blank by exact K.
    destruct st as [h [|]]; simpl; [reflexivity | now rewrite app_nil_r].
  - now rewrite process_line_item by exact K.
  - now rewrite process_line_para by exact K.
Qed.

Lemma run_lines_step (st : state) (lines : list pystr) :
  run_lines st lines =
  mkState (html_lines st ++ loop_blocks (in_list st) lines)
          (last_flag (in_list st) lines).
Proof.
  revert st. induction lines as [|l ls IH]; intros st; simpl.
  - destruct st. simpl. now rewrite app_nil_r.
  - unfold run_lines in *. simpl. rewrite IH, process_line_step. simpl.
    now rewrite <- app_assoc.
Qed.

Lemma render_blocks (lines : list pystr) :
  render lines =
  loop_blocks false lines ++ (if last_flag false lines then [UL_CLOSE] else []).
Proof.
  unfold render. rewrite run_lines_step. unfold flush. simpl.
  destruct (last_flag false lines); simpl; [reflexivity | now rewrite app_nil_r].
Qed.

Lemma loop_blocks_app (b : bool) (xs ys : list pystr) :
  loop_blocks b (xs ++ ys) = loop_blocks b xs ++ loop_blocks (last_flag b xs) ys.
Proof.
  revert b. induction xs as [|x xs IH]; intros b; simpl; [reflexivity|].
  now rewrite IH, app_assoc.
Qed.

Lemma last_flag_app (b : bool) (xs ys : list pystr) :
  last_flag b (xs ++ ys) = last_flag (last_flag b xs) ys.
Proof. revert b. induction xs as [|x xs IH]; intros b; simpl; auto. Qed.

Lemma format_render (text : pystr) :
  format_diagnosis_to_html text = join [NL] (render (split NL (strip text))).
Proof. reflexivity. Qed.

(** ** Matches, and induction on the rest of a match *)

Lemma lazy_close_inv (s g r : pystr) :
  lazy_close s = Some (g, r) -> s = g ++ STAR :: STAR :: r /\ ~ In NL g.
Proof.
  revert g r. induction s as [|c t IH]; intros g r; simpl; [discriminate|].
  destruct t as [|c' t']; [discriminate|].
  destruct ((c =? STAR) && (c' =? STAR)) eqn:E.
  - apply andb_true_iff in E as [E1 E2]. apply N.eqb_eq in E1, E2. subst.
    intros [= <- <-]. simpl. auto.
  - destruct (c =? NL) eqn:En; [discriminate|].
    destruct (lazy_close (c' :: t')) as [[g0 r0]|]; [|discriminate].
    intros [= <- <-]. destruct (IH _ _ eq_refl) as [E' Hn].
    split; [simpl; now rewrite <- E'|].
    intros [H|H]; [|contradiction].
    apply N.eqb_neq in En. congruence.
Qed.

Lemma match_at_shorter (s g r : pystr) :
  match_at s = Some (g, r) -> (List.length r < List.length s)%nat.
Proof.
  intros H. apply match_at_inv in H as [t [-> H]].
  apply lazy_close_inv in H as [-> _]. simpl. rewrite length_app. simpl. lia.
Qed.

Lemma pystr_length_ind (P : pystr -> Prop) :
  (forall s, (forall r, (List.length r < List.length s)%nat -> P r) -> P s) ->
  forall s, P s.
Proof.
  intros step s.
  assert (H : forall n r, (List.length r < n)%nat -> P r).
  { induction n as [|n IH]; intros r Hr; [lia|].
    apply step. intros r' Hr'. apply IH. lia. }
  apply (H (S (List.length s))). lia.
Qed.

(** Every character of the result comes from the input or from a tag. *)
Lemma re_sub_bold_In (c : char) (s : pystr) :
  In c (re_sub_bold s) -> In c s \/ In c B_OPEN \/ In c B_CLOSE.
Proof.
  induction s as [s IH] using pystr_length_ind.
  destruct s as [|a t]; [now rewrite re_sub_bold_nil|].
  rewrite re_sub_bold_cons.
  destruct (match_at (a :: t)) as [[g r]|] eqn:M.
  - pose proof (match_at_shorter _ _ _ M) as Hlen.
    apply match_at_inv in M as [t' [E M]].
    apply lazy_close_inv in M as [-> _]. rewrite E.
    rewrite !in_app_iff. intros [H|[H|[H|H]]]; auto.
    + left. right. right. apply in_or_app. now left.
    + apply IH in H; [|exact Hlen]. destruct H as [H|H]; auto.
      left. right. right. apply in_or_app. right. now right; right.
  - intros [->|H]; [left; now left|].
    apply IH in H; [|simpl; lia]. destruct H as [H|H]; auto. left. now right.
Qed.

(** ** Lines without a newline, and the blocks of the output *)

Lemma strip_In (c : char) (s : pystr) : In c (strip s) -> In c s.
Proof.
  destruct (strip_decomp s) as [w1 [w2 [_ [_ E]]]]. intros H.
  rewrite E. apply in_or_app. right. apply in_or_app. now left.
Qed.

Lemma skipn_In (c : char) (n : nat) (s : pystr) : In c (skipn n s) -> In c s.
Proof.
  intros H. rewrite <- (firstn_skipn n s). apply in_or_app. now right.
Qed.

Section Split.

Variable sep : char.

Lemma split_no_sep (s : pystr) :
  Forall (fun l => ~ In sep l) (split sep s).
Proof.
  induction s as [|c t IH]; simpl.
  - constructor; [tauto | constructor].
  - destruct (c =? sep) eqn:E.
    + constructor; [tauto | exact IH].
    + apply N.eqb_neq in E. destruct (split sep t) as [|l ls].
      * constructor; [|constructor]. intros [H|[]]. congruence.
      * inversion IH as [|? ? Hl Hls]; subst. constructor; [|exact Hls].
        intros [H|H]; [congruence | contradiction].
Qed.

Lemma split_whole (s : pystr) : ~ In sep s -> split sep s = [s].
Proof.
  induction s as [|c t IH]; simpl; [reflexivity|]. intros H.
  destruct (c =? sep) eqn:E.
  - apply N.eqb_eq in E. tauto.
  - rewrite IH by tauto. reflexivity.
Qed.

Lemma split_app_sep (s rest : pystr) :
  ~ In sep s -> split sep (s ++ sep :: rest) = s :: split sep rest.
Proof.
  induction s as [|c t IH]; simpl; intros H.
  - now rewrite N.eqb_refl.
  - destruct (c =? sep) eqn:E.
    + apply N.eqb_eq in E. tauto.
    + rewrite IH by tauto. reflexivity.
Qed.

End Split.

Lemma join_nonempty (b : pystr) (bs : list pystr) :
  b <> [] -> join [NL] (b :: bs) <> [].
Proof.
  destruct b as [|c t]; [congruence|]. intros _.
  destruct bs; simpl; discriminate.
Qed.

Lemma output_blocks_join (blocks : list pystr) :
  Forall is_block blocks -> output_blocks (join [NL] blocks) = blocks.
Proof.
  induction blocks as [|b bs IH]; intros H; [reflexivity|].
  inversion H as [|? ? [Hne Hnl] Hbs]; subst.
  unfold output_blocks.
  destruct (join [NL] (b :: bs)) as [|c out] eqn:E;
    [now apply join_nonempty in E|].
  rewrite <- E. clear E c out. destruct bs as [|b' bs'].
  - simpl. now apply split_whole.
  - change (join [NL] (b :: b' :: bs')) with (b ++ NL :: join [NL] (b' :: bs')).
    rewrite split_app_sep by exact Hnl. f_equal.
    specialize (IH Hbs). unfold output_blocks in IH.
    destruct (join [NL] (b' :: bs')) as [|c out] eqn:E; [|exact IH].
    inversion Hbs as [|? ? [Hne' _] _]; subst. now apply join_nonempty in E.
Qed.

Lemma li_block_is_block (line : pystr) : ~ In NL line -> is_block (li_block line).
Proof.
  intros H. split; [discriminate|]. unfold li_block, list_item_content.
  rewrite !in_app_iff. intros [Hc|[Hc|Hc]].
  - not_in_literal Hc.
  - apply strip_In, skipn_In, re_sub_bold_In in Hc.
    destruct Hc as [Hc|[Hc|Hc]];
      [now apply strip_In in Hc | not_in_literal Hc | not_in_literal Hc].
  - not_in_literal Hc.
Qed.

Lemma p_block_is_block (line : pystr) : ~ In NL line -> is_block (p_block line).
Proof.
  intros H. split; [discriminate|]. unfold p_block.
  rewrite !in_app_iff. intros [Hc|[Hc|Hc]].
  - not_in_literal Hc.
  - apply re_sub_bold_In in Hc.
    destruct Hc as [Hc|[Hc|Hc]];
      [now apply strip_In in Hc | not_in_literal Hc | not_in_literal Hc].
  - not_in_literal Hc.
Qed.

Lemma ul_is_block : is_block UL_OPEN /\ is_block UL_CLOSE.
Proof.
  split; (split; [discriminate|]); intros Hc; not_in_literal Hc.
Qed.

Lemma ul_open_is_block : is_block UL_OPEN.
Proof. apply ul_is_block. Qed.

Lemma ul_close_is_block : is_block UL_CLOSE.
Proof. apply ul_is_block. Qed.

Create HintDb blocks.
#[local] Hint Resolve ul_open_is_block ul_close_is_block
  li_block_is_block p_block_is_block : blocks.
#[local] Hint Constructors Forall : blocks.

Lemma emitted_is_block (b : bool) (line : pystr) :
  ~ In NL line -> Forall is_block (emitted b line).
Proof.
  intros H. unfold emitted.
  destruct (classify line), b; simpl; auto with blocks.
Qed.

Lemma loop_blocks_is_block (b : bool) (lines : list pystr) :
  Forall (fun l => ~ In NL l) lines -> Forall is_block (loop_blocks b lines).
Proof.
  revert b. induction lines as [|l ls IH]; intros b H; simpl; [constructor|].
  inversion H; subst. apply Forall_app. split; [now apply emitted_is_block | now apply IH].
Qed.

(** A tag written in the input is text of a paragraph, not a marker. *)
Example literal_tag_is_text :
  format_diagnosis_to_html (str "<ul>") = str "<p><ul></p>"
  /\ output_blocks (str "<p><ul></p>") = [str "<p><ul></p>"]
  /\ count_block UL_OPEN [str "<p><ul></p>"] = 0%nat.
Proof. vm_compute. repeat split. Qed.

(** Reading the output back gives the blocks the loop appended. *)
Lemma output_blocks_format (text : pystr) :
  output_blocks (format_diagnosis_to_html text) = html_lines (final_state text).
Proof.
  rewrite format_render.
  change (html_lines (final_state text)) with (render (split NL (strip text))).
  apply output_blocks_join. rewrite render_blocks. apply Forall_app. split.
  - apply loop_blocks_is_block, split_no_sep.
  - destruct (last_flag _ _); auto with blocks.
Qed.

(** ** The substitution refines its contract *)

Lemma spec_bold_step (s : pystr) :
  spec_bold s =
  match find_span s with
  | Some (pre, body, rest) => pre ++ B_OPEN ++ body ++ B_CLOSE ++ spec_bold rest
  | None => s
  end.
Proof.
  rewrite spec_bold_equation_1. unfold inspect.
  generalize (@eq_refl _ (find_span s)).
  generalize (find_span s) at 2 4 5.
  intros [[[pre body] rest]|] e; reflexivity.
Qed.

Lemma find_delim_inv (s pre r : pystr) :
  find_delim s = Some (pre, r) -> s = pre ++ STAR :: STAR :: r.
Proof.
  revert pre r. induction s as [|c t IH]; intros pre r; simpl; [discriminate|].
  destruct t as [|c' t']; [discriminate|].
  destruct ((c =? STAR) && (c' =? STAR)) eqn:E.
  - apply andb_true_iff in E as [E1 E2]. apply N.eqb_eq in E1, E2. subst.
    now intros [= <- <-].
  - destruct (find_delim (c' :: t')) as [[p0 r0]|]; [|discriminate].
    intros [= <- <-]. simpl. now rewrite <- (IH _ _ eq_refl).
Qed.

Lemma find_delim_tail (c : char) (t : pystr) :
  find_delim (c :: t) = None -> find_delim t = None.
Proof.
  simpl. destruct t as [|c' t']; [reflexivity|].
  destruct ((c =? STAR) && (c' =? STAR)); [discriminate|].
  now destruct (find_delim (c' :: t')) as [[p r]|].
Qed.

Lemma find_delim_match_at (s : pystr) :
  find_delim s = None -> match_at s = None.
Proof.
  destruct s as [|c [|c' t]]; simpl; try reflexivity.
  destruct ((c =? STAR) && (c' =? STAR)); [discriminate | reflexivity].
Qed.

(** Without a delimiter the scan copies the whole text. *)
Lemma re_sub_bold_no_delim (s : pystr) : find_delim s = None -> re_sub_bold s = s.
Proof.
  induction s as [|c t IH]; intros H; [apply re_sub_bold_nil|].
  rewrite re_sub_bold_cons, find_delim_match_at by exact H.
  now rewrite IH by (eapply find_delim_tail; eauto).
Qed.

(** The scan copies the text up to the first delimiter. *)
Lemma re_sub_bold_to_delim (s pre r : pystr) :
  find_delim s = Some (pre, r) ->
  re_sub_bold s = pre ++ re_sub_bold (STAR :: STAR :: r).
Proof.
  revert pre r. induction s as [|c t IH]; intros pre r; simpl; [discriminate|].
  destruct t as [|c' t']; [discriminate|].
  destruct ((c =? STAR) && (c' =? STAR)) eqn:E.
  - apply andb_true_iff in E as [E1 E2]. apply N.eqb_eq in E1, E2. subst.
    now intros [= <- <-].
  - destruct (find_delim (c' :: t')) as [[p0 r0]|] eqn:F; [|discriminate].
    intros [= <- <-]. rewrite re_sub_bold_cons. simpl match_at. rewrite E.
    simpl. now rewrite (IH _ _ eq_refl).
Qed.

Lemma lazy_close_no_delim (s : pystr) : find_delim s = None -> lazy_close s = None.
Proof.
  induction s as [|c t IH]; simpl; [reflexivity|].
  destruct t as [|c' t']; [reflexivity|].
  destruct ((c =? STAR) && (c' =? STAR)); [discriminate|].
  destruct (find_delim (c' :: t')) as [[p r]|]; [discriminate|].
  intros _. rewrite IH by reflexivity. now destruct (c =? NL).
Qed.

(** On a text without a newline the lazy group stops at the next [**]. *)
Lemma lazy_close_find_delim (s : pystr) : ~ In NL s -> lazy_close s = find_delim s.
Proof.
  induction s as [|c t IH]; simpl; [reflexivity|]. intros H.
  destruct t as [|c' t']; [reflexivity|].
  destruct ((c =? STAR) && (c' =? STAR)); [reflexivity|].
  destruct (c =? NL) eqn:E; [apply N.eqb_eq in E; subst; tauto|].
  rewrite IH by tauto. reflexivity.
Qed.

(** A lone opening delimiter stays as it is. *)
Lemma re_sub_bold_unclosed (r : pystr) :
  find_delim r = None -> re_sub_bold (STAR :: STAR :: r) = STAR :: STAR :: r.
Proof.
  intros H. rewrite re_sub_bold_cons.
  change (match_at (STAR :: STAR :: r)) with (lazy_close r).
  rewrite lazy_close_no_delim by exact H. f_equal.
  rewrite re_sub_bold_cons.
  assert (M : match_at (STAR :: r) = None).
  { destruct r as [|c' r']; [reflexivity|]. simpl.
    destruct (c' =? STAR); [|reflexivity].
    apply lazy_close_no_delim. eapply find_delim_tail; eauto. }
  rewrite M. f_equal. now apply re_sub_bold_no_delim.
Qed.

Lemma re_sub_bold_refines (s : pystr) : ~ In NL s -> re_sub_bold s = spec_bold s.
Proof.
  induction s as [s IH] using pystr_length_ind. intros Hnl.
  rewrite spec_bold_step. unfold find_span.
  destruct (find_delim s) as [[pre r1]|] eqn:E1;
    [|now apply re_sub_bold_no_delim].
  rewrite (re_sub_bold_to_delim _ _ _ E1).
  pose proof (find_delim_inv _ _ _ E1) as Es.
  assert (Hnl1 : ~ In NL r1).
  { intros Hin. apply Hnl. rewrite Es. apply in_or_app. right. now right; right. }
  destruct (find_delim r1) as [[body r2]|] eqn:E2.
  - rewrite re_sub_bold_cons.
    change (match_at (STAR :: STAR :: r1)) with (lazy_close r1).
    rewrite lazy_close_find_delim, E2 by exact Hnl1.
    pose proof (find_delim_inv _ _ _ E2) as Er.
    rewrite IH; [reflexivity | |].
    + rewrite Es, Er, !length_app. simpl. rewrite length_app. simpl. lia.
    + intros Hin. apply Hnl1. rewrite Er. apply in_or_app. right. now right; right.
  - rewrite re_sub_bold_unclosed by exact E2. now rewrite Es.
Qed.

(** ** Balance and nesting, line by line *)

Lemma pystr_eqb_eq (a b : pystr) : pystr_eqb a b = true <-> a = b.
Proof.
  revert b. induction a as [|x a IH]; intros [|y b]; simpl; split;
    try discriminate; try reflexivity.
  - intros H. apply andb_true_iff in H as [H1 H2].
    apply N.eqb_eq in H1. apply IH in H2. congruence.
  - intros [= -> ->]. rewrite N.eqb_refl. now apply IH.
Qed.

Lemma count_block_app (m : pystr) (xs ys : list pystr) :
  count_block m (xs ++ ys) = (count_block m xs + count_block m ys)%nat.
Proof. unfold count_block. now rewrite filter_app, length_app. Qed.

(** One line keeps the markers in step with the flag. *)
Lemma emitted_balance (b : bool) (line : pystr) :
  (count_block UL_OPEN (emitted b line) + (if next_flag line then 0 else 1)
   + (if b then 1 else 0)
   = count_block UL_CLOSE (emitted b line) + 1)%nat.
Proof.
  unfold emitted, next_flag, li_block, p_block.
  destruct (classify line), b; reflexivity.
Qed.

Lemma loop_balance (b : bool) (lines : list pystr) :
  (count_block UL_OPEN (loop_blocks b lines) + (if b then 1 else 0)
   = count_block UL_CLOSE (loop_blocks b lines)
     + (if last_flag b lines then 1 else 0))%nat.
Proof.
  revert b. induction lines as [|l ls IH]; intros b; simpl; [lia|].
  rewrite !count_block_app. specialize (IH (next_flag l)).
  pose proof (emitted_balance b l). destruct (next_flag l), b; lia.
Qed.

Lemma emitted_nested (b : bool) (line : pystr) (rest : list pystr) :
  well_nested b (emitted b line ++ rest) = well_nested (next_flag line) rest.
Proof.
  unfold emitted, next_flag, li_block, p_block.
  destruct (classify line), b; reflexivity.
Qed.

Lemma loop_nested (b : bool) (lines rest : list pystr) :
  well_nested b (loop_blocks b lines ++ rest)
  = well_nested (last_flag b lines) rest.
Proof.
  revert b. induction lines as [|l ls IH]; intros b; simpl; [reflexivity|].
  now rewrite <- app_assoc, emitted_nested, IH.
Qed.

(** ** List items *)

Lemma classify_trimmed (line : pystr) : classify line = spec_classify line.
Proof.
  unfold classify, spec_classify. destruct (strip line) as [|c t]; [reflexivity|].
  change BULLET_DASH with [DASH; SPACE]. change BULLET_STAR with [STAR; SPACE].
  now rewrite !startswith_re_sub_bold by reflexivity.
Qed.

Lemma startswith_bullet (p : char) (s : pystr) :
  startswith s [p; SPACE] = true -> exists rest, s = p :: SPACE :: rest.
Proof.
  destruct s as [|c [|c' rest]]; simpl; try discriminate.
  - now rewrite andb_false_r.
  - intros H. apply andb_true_iff in H as [H1 H2].
    apply andb_true_iff in H2 as [H2 _].
    apply N.eqb_eq in H1, H2. subst. now exists rest.
Qed.

(** A list-item line: its trimmed form is a bullet and a rest, and the
    substitution leaves the bullet alone. *)
Lemma item_shape (line : pystr) :
  classify line = ListItem ->
  exists p rest,
    (p = DASH \/ p = STAR) /\ strip line = p :: SPACE :: rest /\
    re_sub_bold (strip line) = p :: SPACE :: re_sub_bold rest.
Proof.
  rewrite classify_trimmed. unfold spec_classify.
  destruct (strip line) as [|c t] eqn:E; [discriminate|].
  destruct (startswith (c :: t) BULLET_DASH) eqn:Hd.
  - intros _. apply (startswith_bullet DASH) in Hd as [rest Hr].
    exists DASH, rest. rewrite Hr. repeat split; auto.
    now apply re_sub_bold_skip2.
  - destruct (startswith (c :: t) BULLET_STAR) eqn:Hs; [|discriminate].
    intros _. apply (startswith_bullet STAR) in Hs as [rest Hr].
    exists STAR, rest. rewrite Hr. repeat split; auto.
    now apply re_sub_bold_skip2.
Qed.

(** ** Blank documents *)

Lemma blank_lines_all_space (text : pystr) :
  Forall (fun line => strip line = []) (split NL text) -> all_space text = true.
Proof.
  induction text as [|c t IH]; simpl; [reflexivity|].
  destruct (c =? NL) eqn:E.
  - apply N.eqb_eq in E. subst. intros H. inversion H; subst. now apply IH.
  - destruct (split NL t) as [|l ls].
    + intros H. inversion H as [|? ? Hc _]; subst.
      apply strip_nil_space in Hc. simpl in Hc. rewrite andb_true_r in Hc.
      rewrite Hc. apply IH. constructor.
    + intros H. inversion H as [|? ? Hl Hls]; subst.
      apply strip_nil_space in Hl. simpl in Hl.
      apply andb_true_iff in Hl as [Hc Hl]. rewrite Hc. apply IH.
      constructor; [now apply strip_all_space | exact Hls].
Qed.

Lemma format_all_space (text : pystr) :
  all_space text = true -> format_diagnosis_to_html text = [].
Proof.
  intros H. unfold format_diagnosis_to_html, final_state.
  now rewrite strip_all_space by exact H.
Qed.

(** ** The blocks of a run of list items *)

Lemma next_flag_item (l : pystr) : classify l = ListItem -> next_flag l = true.
Proof. unfold next_flag. now intros ->. Qed.

Lemma next_flag_other (l : pystr) : classify l <> ListItem -> next_flag l = false.
Proof. unfold next_flag. now destruct (classify l). Qed.

Lemma last_flag_ends_outside (b : bool) (lines : list pystr) :
  ends_outside lines ->
  last_flag b lines = match lines with [] => b | _ :: _ => false end.
Proof.
  unfold ends_outside. destruct lines as [|x xs] using rev_ind; [reflexivity|].
  rewrite rev_app_distr. simpl. intros H.
  rewrite last_flag_app. simpl. rewrite next_flag_other by exact H.
  now destruct xs.
Qed.

Lemma loop_blocks_items (lines : list pystr) :
  all_items lines -> loop_blocks true lines = map li_block lines.
Proof.
  induction 1 as [|l ls Hl _ IH]; simpl; [reflexivity|].
  rewrite next_flag_item, IH by exact Hl. unfold emitted. now rewrite Hl.
Qed.

Lemma last_flag_items (b : bool) (lines : list pystr) :
  all_items lines -> lines <> [] -> last_flag b lines = true.
Proof.
  intros H. revert b. induction H as [|l ls Hl _ IH]; intros b Hne; [congruence|].
  simpl. rewrite next_flag_item by exact Hl.
  destruct ls as [|l' ls']; [reflexivity|]. now apply IH.
Qed.

(** After a list, lines that do not start with an item first close it. *)
Lemma render_after_list (lines : list pystr) :
  starts_outside lines ->
  loop_blocks true lines ++ (if last_flag true lines then [UL_CLOSE] else [])
  = UL_CLOSE :: render lines.
Proof.
  rewrite render_blocks. destruct lines as [|l ls]; simpl; [reflexivity|].
  intros H. unfold emitted. destruct (classify l); [reflexivity | congruence | reflexivity].
Qed.

(** ** One span *)

(** [pre] holds no [**] and does not end with an asterisk: the first
    delimiter of [pre ++ "**" ++ r] is the one written. *)
Lemma find_delim_app (pre r : pystr) :
  find_delim (pre ++ [STAR]) = None ->
  find_delim (pre ++ STAR :: STAR :: r) = Some (pre, r).
Proof.
  induction pre as [|c pre IH]; [reflexivity|].
  destruct pre as [|c' pre'].
  - simpl. destruct (c =? STAR); [discriminate | reflexivity].
  - intros H. change ((c :: c' :: pre') ++ [STAR]) with (c :: (c' :: pre') ++ [STAR]) in H.
    pose proof (find_delim_tail _ _ H) as H'. specialize (IH H').
    simpl in H |- *. simpl in IH. rewrite IH.
    destruct ((c =? STAR) && (c' =? STAR)); [discriminate | reflexivity].
Qed.

Lemma lazy_close_app (body r : pystr) :
  ~ In NL body -> find_delim (body ++ [STAR]) = None ->
  lazy_close (body ++ STAR :: STAR :: r) = Some (body, r).
Proof.
  intros Hnl H. induction body as [|c body IH]; [reflexivity|].
  assert (Hc : (c =? NL) = false) by (apply N.eqb_neq; intros ->; apply Hnl; now left).
  assert (Hnl' : ~ In NL body) by (intros Hin; apply Hnl; now right).
  destruct body as [|c' body'].
  - simpl in H |- *. rewrite Hc. destruct (c =? STAR); [discriminate | reflexivity].
  - change ((c :: c' :: body') ++ [STAR]) with (c :: (c' :: body') ++ [STAR]) in H.
    pose proof (find_delim_tail _ _ H) as H'. specialize (IH Hnl' H').
    simpl in H |- *. simpl in IH. rewrite IH, Hc.
    destruct ((c =? STAR) && (c' =? STAR)); [discriminate | reflexivity].
Qed.

Lemma re_sub_bold_span (pre body rest : pystr) :
  find_delim (pre ++ [STAR]) = None ->
  find_delim (body ++ [STAR]) = None ->
  ~ In NL body ->
  re_sub_bold (pre ++ STAR :: STAR :: body ++ STAR :: STAR :: rest)
  = pre ++ B_OPEN ++ body ++ B_CLOSE ++ re_sub_bold rest.
Proof.
  intros Hp Hb Hnl.
  rewrite (re_sub_bold_to_delim _ _ _ (find_delim_app _ _ Hp)). f_equal.
  rewrite re_sub_bold_cons.
  change (match_at (STAR :: STAR :: body ++ STAR :: STAR :: rest))
    with (lazy_close (body ++ STAR :: STAR :: rest)).
  now rewrite lazy_close_app.
Qed.

(** ** The loop depends on trimmed lines only *)

Lemma render_render_from (lines : list pystr) : render lines = render_from false lines.
Proof. apply render_blocks. Qed.

Lemma render_from_cons (b : bool) (l : pystr) (ls : list pystr) :
  render_from b (l :: ls) = emitted b l ++ render_from (next_flag l) ls.
Proof. unfold render_from. simpl. now rewrite app_assoc. Qed.

Lemma render_from_app (b : bool) (xs ys : list pystr) :
  render_from b (xs ++ ys) = loop_blocks b xs ++ render_from (last_flag b xs) ys.
Proof.
  unfold render_from. now rewrite loop_blocks_app, last_flag_app, app_assoc.
Qed.

Lemma classify_ext (l l' : pystr) : strip l = strip l' -> classify l = classify l'.
Proof. unfold classify. now intros ->. Qed.

Lemma emitted_ext (b : bool) (l l' : pystr) :
  strip l = strip l' -> emitted b l = emitted b l'.
Proof.
  intros H. unfold emitted, li_block, list_item_content, p_block.
  now rewrite (classify_ext _ _ H), H.
Qed.

Lemma next_flag_ext (l l' : pystr) : strip l = strip l' -> next_flag l = next_flag l'.
Proof. intros H. unfold next_flag. now rewrite (classify_ext _ _ H). Qed.

Lemma render_from_ext (b : bool) (ls ls' : list pystr) :
  map strip ls = map strip ls' -> render_from b ls = render_from b ls'.
Proof.
  revert b ls'. induction ls as [|l ls IH]; intros b [|l' ls'] H; try discriminate H.
  - reflexivity.
  - injection H as Hl Hls. rewrite !render_from_cons.
    now rewrite (emitted_ext _ _ _ Hl), (next_flag_ext _ _ Hl), (IH _ _ Hls).
Qed.

(** ** Blank lines *)

Lemma classify_blank (l : pystr) : classify l = Blank <-> all_space l = true.
Proof.
  unfold classify. split.
  - destruct (strip l) eqn:E; [intros _; now apply strip_nil_space|].
    destruct (_ || _); discriminate.
  - intros H. now rewrite strip_all_space.
Qed.

Lemma emitted_blank (b : bool) (l : pystr) :
  all_space l = true ->
  emitted b l = (if b then [UL_CLOSE] else []) /\ next_flag l = false.
Proof.
  intros H. apply classify_blank in H. unfold emitted, next_flag. now rewrite H.
Qed.

Lemma loop_blocks_blank (lines : list pystr) :
  all_blank lines -> loop_blocks false lines = [] /\ last_flag false lines = false.
Proof.
  induction 1 as [|l ls Hl _ [IH1 IH2]]; simpl; [now split|].
  destruct (emitted_blank false l Hl) as [-> ->]. now split.
Qed.

Lemma render_from_blank (b : bool) (lines : list pystr) :
  all_blank lines -> render_from b lines = if b then [UL_CLOSE] else [].
Proof.
  intros H. destruct H as [|l ls Hl Hls]; [unfold render_from; simpl; now destruct b|].
  rewrite render_from_cons. destruct (emitted_blank b l Hl) as [-> ->].
  unfold render_from. destruct (loop_blocks_blank ls Hls) as [-> ->].
  now rewrite app_nil_r.
Qed.

Lemma split_all_space (w : pystr) : all_space w = true -> all_blank (split NL w).
Proof.
  induction w as [|c w IH]; simpl; [repeat constructor|].
  intros H. apply andb_true_iff in H as [Hc Hw]. specialize (IH Hw).
  destruct (c =? NL); [constructor; [reflexivity | exact IH]|].
  destruct (split NL w) as [|l ls]; [repeat constructor; simpl; now rewrite Hc|].
  inversion IH as [|? ? Hl Hls]; subst. constructor; [|exact Hls].
  simpl. now rewrite Hc.
Qed.

(** ** Splitting a concatenation *)

Lemma split_last (sep : char) (s : pystr) :
  exists init la, split sep s = init ++ [la].
Proof.
  induction s as [|c t [init [la E]]]; simpl; [now exists [], []|].
  destruct (c =? sep); [exists ([] :: init), la; now rewrite E|].
  rewrite E. destruct init as [|x init]; simpl.
  - now exists [], (c :: la).
  - now exists ((c :: x) :: init), la.
Qed.

(** The last line of [a] and the first line of [b] become one line. *)
Lemma split_app (sep : char) (a b : pystr) (init : list pystr) (la hb : pystr)
      (tb : list pystr) :
  split sep a = init ++ [la] -> split sep b = hb :: tb ->
  split sep (a ++ b) = init ++ (la ++ hb) :: tb.
Proof.
  intros Ha Hb. revert init la Ha. induction a as [|c a IH]; intros init la; simpl.
  - destruct init as [|x [|y init]]; simpl; try discriminate.
    now intros [= <-].
  - destruct (c =? sep).
    + destruct init as [|x init]; simpl.
      * intros [= _ E]. destruct (split_last sep a) as [i [l E']].
        rewrite E' in E. now destruct i.
      * intros [= <- E]. now rewrite (IH _ _ E).
    + destruct (split_last sep a) as [i [l E']]. rewrite E'.
      rewrite (IH _ _ E'). destruct i as [|x i]; simpl.
      * destruct init as [|y [|z init]]; simpl; try discriminate.
        now intros [= <-].
      * destruct init as [|y init]; simpl; [now destruct i|].
        intros [= <- E]. apply app_inj_tail in E as [-> ->]. reflexivity.
Qed.

(** White space after a text: the loop appends the same blocks. *)
Lemma render_from_trailing (b : bool) (s w : pystr) :
  all_space w = true ->
  render_from b (split NL (s ++ w)) = render_from b (split NL s).
Proof.
  intros Hw. destruct (split_last NL s) as [init [la Es]].
  pose proof (split_all_space w Hw) as Bw.
  destruct (split NL w) as [|hb tb] eqn:Ew.
  { destruct w; simpl in Ew; [discriminate|].
    destruct (_ =? _); [discriminate|]. destruct (split NL w); discriminate. }
  inversion Bw as [|? ? Hhb Htb]; subst.
  rewrite (split_app NL s w init la hb tb Es Ew), Es, !render_from_app. f_equal.
  rewrite !render_from_cons.
  assert (E : strip (la ++ hb) = strip la).
  { now rewrite <- (strip_surround [] la hb) by auto. }
  rewrite (emitted_ext _ _ _ E), (next_flag_ext _ _ E). f_equal.
  rewrite render_from_blank by exact Htb. reflexivity.
Qed.

(** White space before a text: the loop appends the same blocks. *)
Lemma render_from_leading (w s : pystr) :
  all_space w = true ->
  render_from false (split NL (w ++ s)) = render_from false (split NL s).
Proof.
  intros Hw. destruct (split_last NL w) as [init [la Ew]].
  pose proof (split_all_space w Hw) as Bw. rewrite Ew in Bw.
  apply Forall_app in Bw as [Binit Bla]. inversion Bla as [|? ? Hla _]; subst.
  destruct (split NL s) as [|hb tb] eqn:Es.
  { destruct s; simpl in Es; [discriminate|].
    destruct (_ =? _); [discriminate|]. destruct (split NL s); discriminate. }
  rewrite (split_app NL w s init la hb tb Ew Es), render_from_app.
  destruct (loop_blocks_blank init Binit) as [-> ->]. simpl.
  apply render_from_ext. simpl. f_equal.
  now rewrite <- (app_nil_r (la ++ hb)), <- app_assoc, strip_surround by auto.
Qed.

Lemma render_split_strip (text : pystr) :
  render (split NL (strip text)) = render (split NL text).
Proof.
  destruct (strip_decomp text) as [w1 [w2 [H1 [H2 E]]]].
  rewrite E at 2. rewrite !render_render_from.
  rewrite render_from_leading by exact H1.
  now rewrite render_from_trailing by exact H2.
Qed.

(** ** Lines joined and split again *)

Lemma split_join (lines : list pystr) :
  lines <> [] -> Forall (fun l => ~ In NL l) lines ->
  split NL (join [NL] lines) = lines.
Proof.
  intros Hne H. revert Hne. induction H as [|l ls Hl Hls IH]; intros Hne;
    [exfalso; now apply Hne|].
  destruct ls as [|l' ls'].
  - simpl. now apply split_whole.
  - change (join [NL] (l :: l' :: ls')) with (l ++ NL :: join [NL] (l' :: ls')).
    rewrite split_app_sep by exact Hl. f_equal. apply IH. discriminate.
Qed.

(** ** Elements and their content *)

Lemma strip_last (s x : pystr) (c : char) :
  strip s = x ++ [c] -> isspace c = false.
Proof.
  unfold strip, rstrip. intros H.
  apply (f_equal (@rev char)) in H. rewrite rev_involutive, rev_app_distr in H.
  simpl in H. now apply lstrip_head in H.
Qed.

Lemma all_space_In (s : pystr) (c : char) :
  all_space s = true -> In c s -> isspace c = true.
Proof. unfold all_space. rewrite forallb_forall. auto. Qed.

(** The scan returns its input, or a text that holds a tag. *)
Lemma re_sub_bold_same_or_tag (s : pystr) :
  re_sub_bold s = s \/ In 60 (re_sub_bold s).
Proof.
  induction s as [|c t IH]; [left; apply re_sub_bold_nil|].
  rewrite re_sub_bold_cons. destruct (match_at (c :: t)) as [[g r]|].
  - right. now left.
  - destruct IH as [-> | H]; [now left | right; now right].
Qed.

Lemma re_sub_bold_nonempty (s : pystr) : s <> [] -> re_sub_bold s <> [].
Proof.
  destruct s as [|c t]; [congruence|]. intros _. rewrite re_sub_bold_cons.
  destruct (match_at (c :: t)) as [[g r]|]; discriminate.
Qed.

Lemma list_item_content_nonempty (line : pystr) :
  classify line = ListItem -> list_item_content line <> [].
Proof.
  intros K. destruct (item_shape _ K) as [p [rest [_ [E R]]]].
  unfold list_item_content. rewrite R. simpl skipn. intros H.
  apply strip_nil_space in H.
  destruct (exists_last (l := rest)) as [r [c Er]].
  { intros ->. now apply (strip_last line [p] SPACE) in E. }
  assert (Hc : isspace c = false).
  { apply (strip_last line (p :: SPACE :: r) c). rewrite E, Er. reflexivity. }
  destruct (re_sub_bold_same_or_tag rest) as [Hs | Hs].
  - rewrite Hs in H. rewrite (all_space_In rest c H) in Hc; [discriminate|].
    rewrite Er. apply in_or_app. right. now left.
  - now apply (all_space_In _ _ H) in Hs.
Qed.

Lemma is_marker_element (line : pystr) : is_marker (element_of line) = false.
Proof. unfold element_of. now destruct (classify line). Qed.

Lemma emitted_elements (b : bool) (line : pystr) :
  filter (fun x => negb (is_marker x)) (emitted b line)
  = if non_blank line then [element_of line] else [].
Proof.
  unfold emitted, non_blank, element_of.
  destruct (classify line), b; reflexivity.
Qed.

Lemma render_from_elements (b : bool) (lines : list pystr) :
  filter (fun x => negb (is_marker x)) (render_from b lines)
  = map element_of (filter non_blank lines).
Proof.
  revert b. induction lines as [|l ls IH]; intros b.
  - unfold render_from. simpl. now destruct b.
  - rewrite render_from_cons, filter_app, emitted_elements, IH. simpl.
    now destruct (non_blank l).
Qed.

(** ** Runs of list items, again *)

Lemma render_run (pre run post : list pystr) :
  run <> [] -> all_items run -> ends_outside pre -> starts_outside post ->
  render (pre ++ run ++ post)
  = render pre ++ [UL_OPEN] ++ map li_block run ++ [UL_CLOSE] ++ render post.
Proof.
  intros Hne Hrun Hpre Hpost.
  assert (Fpre : last_flag false pre = false).
  { rewrite last_flag_ends_outside by exact Hpre. now destruct pre. }
  rewrite (render_blocks pre), Fpre, app_nil_r.
  rewrite render_blocks, !loop_blocks_app, !last_flag_app, Fpre.
  rewrite (last_flag_items _ _ Hrun Hne), <- !app_assoc. f_equal.
  rewrite render_after_list by exact Hpost.
  destruct Hrun as [|l ls Hl Hls]; [congruence|].
  simpl. rewrite next_flag_item, loop_blocks_items by assumption.
  unfold emitted. now rewrite Hl.
Qed.

(** ** Lists and their items *)

Lemma emitted_items (b : bool) (line : pystr) (rest : list pystr) :
  lists_have_items (pos_of_flag b) (emitted b line ++ rest)
  = lists_have_items (pos_of_flag (next_flag line)) rest.
Proof.
  unfold emitted, next_flag, li_block, p_block.
  destruct (classify line), b; reflexivity.
Qed.

Lemma loop_items (b : bool) (lines rest : list pystr) :
  lists_have_items (pos_of_flag b) (loop_blocks b lines ++ rest)
  = lists_have_items (pos_of_flag (last_flag b lines)) rest.
Proof.
  revert b. induction lines as [|l ls IH]; intros b; simpl; [reflexivity|].
  now rewrite <- app_assoc, emitted_items, IH.
Qed.

(** ** The empty output *)

Lemma join_nil (blocks : list pystr) :
  Forall is_block blocks -> join [NL] blocks = [] -> blocks = [].
Proof.
  intros H E. destruct H as [|b bs [Hb _] _]; [reflexivity|].
  now apply join_nonempty in E.
Qed.

Lemma render_nil_blank (lines : list pystr) :
  render lines = [] -> all_blank lines.
Proof.
  intros E. pose proof (render_from_elements false lines) as F.
  rewrite <- render_render_from, E in F. simpl in F. symmetry in F.
  apply map_eq_nil in F. unfold all_blank. rewrite Forall_forall. intros l Hl.
  apply classify_blank. destruct (classify l) eqn:K; [reflexivity| |];
    (assert (Hin : In l (filter non_blank lines))
       by (apply filter_In; split; [exact Hl | unfold non_blank; now rewrite K]);
     rewrite F in Hin; destruct Hin).
Qed.

(** ** Where the characters of the output come from *)

(** A character of a tag literal is one of [TAG_CHARS]. *)
Ltac in_tag_chars H :=
  vm_compute in H; repeat (destruct H as [H|H]; [rewrite <- H; vm_compute; tauto|]);
  destruct H.

Lemma split_In (sep c : char) (s l : pystr) :
  In l (split sep s) -> In c l -> In c s.
Proof.
  revert l. induction s as [|a t IH]; intros l; simpl.
  - intros [<-|[]] [].
  - destruct (a =? sep).
    + intros [<-|H] Hc; [destruct Hc | right; eauto].
    + destruct (split sep t) as [|x xs].
      * intros [<-|[]] [->|[]]. now left.
      * intros [<-|H] Hc.
        -- destruct Hc as [->|Hc]; [now left|].
           right. apply (IH x); [now left | exact Hc].
        -- right. apply (IH l); [now right | exact Hc].
Qed.

Lemma join_In (c : char) (sep : pystr) (parts : list pystr) :
  In c (join sep parts) -> In c sep \/ exists p, In p parts /\ In c p.
Proof.
  induction parts as [|p ps IH]; simpl; [tauto|].
  destruct ps as [|q qs].
  - intros H. right. exists p. auto.
  - rewrite !in_app_iff. intros [H|[H|H]].
    + right. exists p. auto.
    + now left.
    + destruct (IH H) as [Hs|[x [Hx Hc]]]; [now left|].
      right. exists x. auto.
Qed.

Lemma li_block_In (c : char) (line : pystr) :
  In c (li_block line) -> In c line \/ In c TAG_CHARS.
Proof.
  unfold li_block, list_item_content. rewrite !in_app_iff. intros [H|[H|H]].
  - right. in_tag_chars H.
  - apply strip_In, skipn_In, re_sub_bold_In in H.
    destruct H as [H|[H|H]]; [left; now apply strip_In in H | |];
      right; in_tag_chars H.
  - right. in_tag_chars H.
Qed.

Lemma p_block_In (c : char) (line : pystr) :
  In c (p_block line) -> In c line \/ In c TAG_CHARS.
Proof.
  unfold p_block. rewrite !in_app_iff. intros [H|[H|H]].
  - right. in_tag_chars H.
  - apply re_sub_bold_In in H.
    destruct H as [H|[H|H]]; [left; now apply strip_In in H | |];
      right; in_tag_chars H.
  - right. in_tag_chars H.
Qed.

Lemma emitted_In (c : char) (b : bool) (line blk : pystr) :
  In blk (emitted b line) -> In c blk -> In c line \/ In c TAG_CHARS.
Proof.
  unfold emitted. intros Hb Hc.
  destruct (classify line), b; simpl in Hb;
    repeat (destruct Hb as [<-|Hb];
            [first [now apply li_block_In | now apply p_block_In
                   | right; in_tag_chars Hc]|]);
    destruct Hb.
Qed.

Lemma loop_blocks_In (c : char) (b : bool) (lines : list pystr) (blk : pystr) :
  In blk (loop_blocks b lines) -> In c blk ->
  (exists l, In l lines /\ In c l) \/ In c TAG_CHARS.
Proof.
  revert b. induction lines as [|l ls IH]; intros b; simpl; [tauto|].
  rewrite in_app_iff. intros [H|H] Hc.
  - destruct (emitted_In c b l blk H Hc) as [Hl|Ht]; [left; exists l; auto | now right].
  - destruct (IH _ H Hc) as [[x [Hx Hxc]]|Ht]; [left; exists x; auto | now right].
Qed.

(** ** The shape of a list-item line *)

Lemma rstrip_app (x y : pystr) : rstrip y <> [] -> rstrip (x ++ y) = x ++ rstrip y.
Proof.
  unfold rstrip. intros H. rewrite rev_app_distr, lstrip_app.
  - now rewrite rev_app_distr, rev_involutive.
  - intros E. apply H. now rewrite E.
Qed.

Lemma all_space_false_In (s : pystr) (c : char) :
  In c s -> isspace c = false -> all_space s = false.
Proof.
  intros Hin Hc. destruct (all_space s) eqn:E; [|reflexivity].
  now rewrite (all_space_In s c E Hin) in Hc.
Qed.

Lemma classify_rule (st : state) (line : pystr) :
  process_line st line =
  match spec_classify line with
  | Blank =>
      if in_list st then mkState (html_lines st ++ [UL_CLOSE]) false else st
  | ListItem =>
      mkState (html_lines st ++ (if in_list st then [] else [UL_OPEN])
               ++ [li_block line]) true
  | Paragraph =>
      mkState (html_lines st ++ (if in_list st then [UL_CLOSE] else [])
               ++ [p_block line]) false
  end
  /\ classify line = spec_classify line
  /\ (classify line = Blank <-> strip line = [])
  /\ (classify line = ListItem <->
      startswith (strip line) BULLET_DASH = true
      \/ startswith (strip line) BULLET_STAR = true).
Proof.
  split.
  { rewrite <- classify_trimmed. destruct (classify line) eqn:K.
    - now apply process_line_blank.
    - now apply process_line_item.
    - now apply process_line_para. }
  split; [apply classify_trimmed|]. rewrite classify_trimmed. unfold spec_classify.
  destruct (strip line) as [|c t] eqn:E.
  - split; [tauto|]. split; [discriminate|]. intros [H|H]; discriminate H.
  - destruct (startswith (c :: t) BULLET_DASH);
      destruct (startswith (c :: t) BULLET_STAR); simpl;
      (split; [split; discriminate|]); split; auto; try discriminate;
      intros [H|H]; discriminate H.
Qed.

(** A list-item line, character by character. *)
Lemma classify_item_shape (line : pystr) :
  classify line = ListItem -> bullet_line line.
Proof.
  intros K. destruct (item_shape _ K) as [p [rest [Hp [E _]]]].
  destruct (strip_decomp line) as [w1 [w2 [H1 [H2 D]]]].
  exists w1, (rest ++ w2). split; [exact H1|]. split.
  - destruct (exists_last (l := rest)) as [r [c Er]].
    { intros ->. now apply (strip_last line [p] SPACE) in E. }
    assert (Hc : isspace c = false).
    { apply (strip_last line (p :: SPACE :: r) c). rewrite E, Er. reflexivity. }
    apply (all_space_false_In _ c); [|exact Hc].
    rewrite Er. apply in_or_app. left. apply in_or_app. right. now left.
  - rewrite E in D. destruct Hp as [-> | ->]; [left | right]; exact D.
Qed.

Lemma bullet_line_strip (p : char) (w rest : pystr) :
  isspace p = false -> all_space w = true -> all_space rest = false ->
  strip (w ++ p :: SPACE :: rest) = p :: SPACE :: rstrip rest.
Proof.
  intros Hp Hw Hr.
  rewrite <- (app_nil_r (p :: SPACE :: rest)), strip_surround by auto.
  unfold strip. simpl lstrip. rewrite Hp.
  change (p :: SPACE :: rest) with ([p; SPACE] ++ rest).
  rewrite rstrip_app; [reflexivity|].
  intros E. apply rstrip_nil_space in E. congruence.
Qed.

Lemma bullet_line_classify (line : pystr) :
  bullet_line line -> classify line = ListItem.
Proof.
  intros [w [rest [Hw [Hr [-> | ->]]]]]; rewrite classify_trimmed;
    unfold spec_classify;
    rewrite (bullet_line_strip _ w rest) by (reflexivity || assumption);
    reflexivity.
Qed.

(** * The claims *)

(** C1 (as the code has it).  For every input, the blocks of the output
    hold as many [</ul>] markers as [<ul>] markers; when the loop ends, the
    open markers exceed the close markers by one exactly when the flag is
    set, and the statement after the loop then appends the missing close
    marker.  That statement does not assign the flag. *)
Theorem list_balance (text : pystr) :
  let out := format_diagnosis_to_html text in
  let st := run_lines init (split NL (strip text)) in
  count_block UL_CLOSE (output_blocks out) = count_block UL_OPEN (output_blocks out)
  /\ count_block UL_OPEN (html_lines st)
     = (count_block UL_CLOSE (html_lines st) + (if in_list st then 1 else 0))%nat
  /\ html_lines (final_state text)
     = html_lines st ++ (if in_list st then [UL_CLOSE] else [])
  /\ in_list (final_state text) = in_list st.
Proof.
  cbv zeta. rewrite output_blocks_format.
  change (final_state text) with (flush (run_lines init (split NL (strip text)))).
  rewrite run_lines_step. unfold flush. simpl.
  pose proof (loop_balance false (split NL (strip text))) as B.
  destruct (last_flag false (split NL (strip text))); simpl.
  - rewrite !count_block_app.
    change (count_block UL_CLOSE [UL_CLOSE]) with 1%nat.
    change (count_block UL_OPEN [UL_CLOSE]) with 0%nat.
    repeat split; lia.
  - rewrite app_nil_r. repeat split; lia.
Qed.

(** C1, the input ["- a"]: the flag is still set at the [return]. *)
Lemma in_list_at_return :
  classify (str "- a") = ListItem
  /\ html_lines (final_state (str "- a")) = [str "<ul>"; str "<li>a</li>"; str "</ul>"]
  /\ in_list (final_state (str "- a")) = true.
Proof. vm_compute. repeat split. Qed.

(** C2 (as the code has it).  For every line of the document classified
    as list-item, from either state, the list-item element appended holds
    the trimmed line without its 2-character bullet prefix, with its spans
    converted to bold elements, and then trimmed of surrounding white
    space. *)
Theorem list_item_round_trip (st : state) (line : pystr) :
  ~ In NL line ->
  classify line = ListItem ->
  process_line st line =
  mkState (html_lines st ++ (if in_list st then [] else [UL_OPEN])
           ++ [LI_OPEN ++ strip (spec_list_item_content line) ++ LI_CLOSE])
          true.
Proof.
  intros Hnl K. rewrite process_line_item by exact K.
  unfold li_block, list_item_content, spec_list_item_content.
  destruct (item_shape _ K) as [p [rest [_ [E R]]]].
  rewrite R, E. simpl skipn. rewrite re_sub_bold_refines; [reflexivity|].
  intros Hin. apply Hnl. apply strip_In. rewrite E. now right; right.
Qed.

Lemma list_item_round_trip_witness :
  process_line init (str "*   **a** b ") =
  mkState [str "<ul>"; str "<li><b>a</b> b</li>"] true.
Proof.
  apply (list_item_round_trip init (str "*   **a** b ")).
  - intros H. not_in_literal H.
  - vm_compute. reflexivity.
Defined.

(** C2, the line ["-  a"] (two spaces after the dash): the element holds
    ["a"], the description without the final trim gives [" a"]. *)
Lemma list_item_content_is_trimmed :
  classify (str "-  a") = ListItem
  /\ html_lines (process_line init (str "-  a")) = [str "<ul>"; str "<li>a</li>"]
  /\ list_item_content (str "-  a") = str "a"
  /\ spec_list_item_content (str "-  a") = str " a"
  /\ list_item_content (str "-  a") <> spec_list_item_content (str "-  a").
Proof. vm_compute. repeat split. discriminate. Qed.

(** C3.  For every list-item line, from either state: the substitution is
    applied to the whole trimmed line; the result starts with the bullet,
    ["- "] or ["* "]; those 2 characters are dropped; what remains is
    trimmed and becomes the content of the [<li>] element appended (after
    a [<ul>] when no list was open). *)
Theorem list_item_order (st : state) (line : pystr) :
  classify line = ListItem ->
  let processed_line := re_sub_bold (strip line) in
  (firstn 2 processed_line = BULLET_DASH \/ firstn 2 processed_line = BULLET_STAR)
  /\ process_line st line =
     mkState (html_lines st ++ (if in_list st then [] else [UL_OPEN])
              ++ [LI_OPEN ++ strip (skipn 2 processed_line) ++ LI_CLOSE])
             true.
Proof.
  intros K. cbv zeta. split.
  - destruct (item_shape _ K) as [p [rest [[-> | ->] [_ ->]]]]; [now left | now right].
  - now rewrite process_line_item by exact K.
Qed.

Lemma list_item_order_witness :
  process_line init (str "  - **x** y ") =
  mkState [str "<ul>"; str "<li><b>x</b> y</li>"] true.
Proof.
  assert (K : classify (str "  - **x** y ") = ListItem) by (vm_compute; reflexivity).
  exact (proj2 (list_item_order init (str "  - **x** y ") K)).
Defined.

(** C4.  For every line and either state, what the loop body does is
    decided by the kind the trimmed raw line has; the branch the body takes
    (its bullet test is on the line after the substitution) is that kind:
    blank iff the trimmed form is empty, that is iff the line is white
    space only; list-item iff the trimmed form starts with ["- "] or
    ["* "], that is iff the line is white space, a bullet, one space and a
    rest that is not white space only; paragraph otherwise.  So ["  - a"]
    and ["* b  "] are list items, a bold span around a bullet does not make
    one, and a bullet without its space, or with nothing or a tab after
    it, gives a paragraph. *)
Theorem classify_by_trimmed_line :
  (forall st line,
      process_line st line =
      match spec_classify line with
      | Blank =>
          if in_list st then mkState (html_lines st ++ [UL_CLOSE]) false else st
      | ListItem =>
          mkState (html_lines st ++ (if in_list st then [] else [UL_OPEN])
                   ++ [li_block line]) true
      | Paragraph =>
          mkState (html_lines st ++ (if in_list st then [UL_CLOSE] else [])
                   ++ [p_block line]) false
      end
      /\ classify line = spec_classify line
      /\ (classify line = Blank <-> strip line = [])
      /\ (classify line = ListItem <->
          startswith (strip line) BULLET_DASH = true
          \/ startswith (strip line) BULLET_STAR = true))
  /\ (forall line, classify line = Blank <-> all_space line = true)
  /\ (forall line, classify line = ListItem <-> bullet_line line)
  /\ (forall line,
         classify line = Paragraph <->
         all_space line = false /\ ~ bullet_line line)
  /\ classify (str "  - a") = ListItem
  /\ classify (str "* b  ") = ListItem
  /\ classify (str "- **c** - d") = ListItem
  /\ process_line init (str "  - a") = mkState [str "<ul>"; str "<li>a</li>"] true
  /\ classify (str "-a") = Paragraph
  /\ classify (str "- ") = Paragraph
  /\ classify (str "-" ++ [9] ++ str "a") = Paragraph
  /\ classify (str "**- a**") = Paragraph
  /\ classify (str "a - b") = Paragraph
  /\ process_line init (str " -a ") = mkState [str "<p>-a</p>"] false
  /\ classify [32; 9; 12288] = Blank
  /\ classify [] = Blank.
Proof.
  split; [intros st line; apply classify_rule|].
  split; [apply classify_blank|].
  assert (I : forall line, classify line = ListItem <-> bullet_line line).
  { intros line. split; [apply classify_item_shape | apply bullet_line_classify]. }
  split; [exact I|]. split.
  - intros line. rewrite <- I. split.
    + intros K. split; [|congruence].
      destruct (all_space line) eqn:E; [|reflexivity].
      apply classify_blank in E. congruence.
    + intros [Hs Hi]. destruct (classify line) eqn:K; [|tauto|reflexivity].
      apply classify_blank in K. congruence.
  - repeat split; reflexivity.
Qed.

Lemma classify_by_trimmed_line_witness :
  classify ([9; 32] ++ 42 :: 32 :: str "**x** y ") = ListItem
  /\ classify [13; 32] = Blank
  /\ (all_space (str "1. a") = false /\ ~ bullet_line (str "1. a")).
Proof.
  destruct classify_by_trimmed_line as [_ [B [I [P _]]]]. split; [|split].
  - apply (proj2 (I ([9; 32] ++ 42 :: 32 :: str "**x** y "))).
    exists [9; 32], (str "**x** y "). repeat split; auto.
  - apply (proj2 (B [13; 32])). reflexivity.
  - apply (proj1 (P (str "1. a"))). vm_compute. reflexivity.
Defined.

(** C5.  On the trimmed form of every line of a document, the
    substitution is the one the contract words: spans are found left to
    right, the first [**] opening a span and the next [**] after it closing
    it; each span becomes a bold element around the enclosed text; the
    text around the spans is kept; a delimiter without a partner stays
    literal.  The input ["**bold** and plain"] gives one paragraph, a bold
    element around [bold] followed by [ and plain]. *)
Theorem emphasis_contract :
  (forall text line,
      In line (split NL (strip text)) ->
      re_sub_bold (strip line) = spec_bold (strip line))
  /\ (forall pre body rest,
         find_delim (pre ++ [STAR]) = None ->
         find_delim (body ++ [STAR]) = None ->
         ~ In NL body ->
         re_sub_bold (pre ++ str "**" ++ body ++ str "**" ++ rest)
         = pre ++ str "<b>" ++ body ++ str "</b>" ++ re_sub_bold rest)
  /\ (forall s, find_span s = None -> ~ In NL s -> re_sub_bold s = s)
  /\ html_lines (final_state (str "**bold** and plain"))
     = [str "<p><b>bold</b> and plain</p>"]
  /\ format_diagnosis_to_html (str "**bold** and plain")
     = str "<p><b>bold</b> and plain</p>".
Proof.
  split; [|split; [|split; [|split; reflexivity]]].
  - intros text line Hin. apply re_sub_bold_refines.
    intros H. apply strip_In in H. revert H.
    pose proof (split_no_sep NL (strip text)) as F.
    rewrite Forall_forall in F. now apply F.
  - intros pre body rest Hp Hb Hnl. now apply re_sub_bold_span.
  - intros s Hs Hnl. rewrite re_sub_bold_refines by exact Hnl.
    now rewrite spec_bold_step, Hs.
Qed.

Lemma emphasis_contract_witness :
  re_sub_bold (strip (str " a **b** c** ")) = spec_bold (strip (str " a **b** c** "))
  /\ re_sub_bold (str "x " ++ str "**" ++ str "y" ++ str "**" ++ str " z")
     = str "x " ++ str "<b>" ++ str "y" ++ str "</b>" ++ re_sub_bold (str " z")
  /\ re_sub_bold (str "2 ** 3") = str "2 ** 3".
Proof.
  destruct emphasis_contract as [H1 [H2 [H3 _]]]. split; [|split].
  - apply (H1 (str "p" ++ [NL] ++ str " a **b** c** " ++ [NL] ++ str "q")).
    vm_compute. right. left. reflexivity.
  - apply (H2 (str "x ") (str "y") (str " z")).
    + vm_compute. reflexivity.
    + vm_compute. reflexivity.
    + intros H. not_in_literal H.
  - apply (H3 (str "2 ** 3")).
    + vm_compute. reflexivity.
    + intros H. not_in_literal H.
Defined.

(** C6.  The renderer is a function defined on every text (each of its
    parts terminates, the substitution by well-founded recursion), and it
    returns the empty string on the empty text, on every text made of
    white space, and on every text whose lines are all blank. *)
Theorem blank_input_empty_output :
  format_diagnosis_to_html [] = []
  /\ (forall text, all_space text = true -> format_diagnosis_to_html text = [])
  /\ (forall text,
         Forall (fun line => strip line = []) (split NL text) ->
         format_diagnosis_to_html text = []).
Proof.
  split; [reflexivity|]. split.
  - apply format_all_space.
  - intros text H. now apply format_all_space, blank_lines_all_space.
Qed.

Lemma blank_input_empty_output_witness :
  format_diagnosis_to_html (str "  " ++ [NL; 9; NL; NL] ++ str " ") = [].
Proof.
  apply (proj2 (proj2 blank_input_empty_output)).
  vm_compute. repeat constructor.
Defined.

(** C7.  A list-item line followed at once by a paragraph line, from
    either state: the item is appended (after [<ul>] when no list was
    open), then [</ul>], then the paragraph, and the flag is cleared.  The
    input ["- a\nb"] gives the four blocks [<ul>], [<li>a</li>], [</ul>],
    [<p>b</p>]. *)
Theorem list_closed_before_paragraph :
  (forall st l1 l2,
      classify l1 = ListItem -> classify l2 = Paragraph ->
      run_lines st [l1; l2] =
      mkState (html_lines st ++ (if in_list st then [] else [UL_OPEN])
               ++ [li_block l1; UL_CLOSE; p_block l2])
              false)
  /\ html_lines (final_state (str "- a" ++ [NL] ++ str "b"))
     = [str "<ul>"; str "<li>a</li>"; str "</ul>"; str "<p>b</p>"]
  /\ format_diagnosis_to_html (str "- a" ++ [NL] ++ str "b")
     = str "<ul>" ++ [NL] ++ str "<li>a</li>" ++ [NL] ++ str "</ul>" ++ [NL]
       ++ str "<p>b</p>".
Proof.
  split; [|split; reflexivity].
  intros st l1 l2 K1 K2. unfold run_lines. simpl.
  rewrite (process_line_item _ _ K1), (process_line_para _ _ K2). simpl.
  rewrite <- !app_assoc. reflexivity.
Qed.

Lemma list_closed_before_paragraph_witness :
  run_lines init [str "* x"; str "y"] =
  mkState [str "<ul>"; str "<li>x</li>"; str "</ul>"; str "<p>y</p>"] false.
Proof.
  apply (proj1 list_closed_before_paragraph init (str "* x") (str "y"));
    vm_compute; reflexivity.
Defined.

(** C8.  A maximal run of list-item lines (the line before it, if any, and
    the line after it, if any, are not list items) contributes exactly one
    [<ul>], one [<li>] element per line in the order of the lines, and one
    [</ul>], which comes before anything the following lines produce; the
    lines before and after render as they do on their own.  The single
    line ["- item"] gives [<ul>], [<li>item</li>], [</ul>]. *)
Theorem list_run_blocks :
  (forall pre run post,
      run <> [] -> all_items run -> ends_outside pre -> starts_outside post ->
      render (pre ++ run ++ post)
      = render pre ++ [UL_OPEN] ++ map li_block run ++ [UL_CLOSE] ++ render post)
  /\ html_lines (final_state (str "- item"))
     = [str "<ul>"; str "<li>item</li>"; str "</ul>"]
  /\ format_diagnosis_to_html (str "- item")
     = str "<ul>" ++ [NL] ++ str "<li>item</li>" ++ [NL] ++ str "</ul>".
Proof.
  split; [|split; reflexivity].
  intros pre run post Hne Hrun Hpre Hpost.
  assert (Fpre : last_flag false pre = false).
  { rewrite last_flag_ends_outside by exact Hpre. now destruct pre. }
  rewrite (render_blocks pre), Fpre, app_nil_r.
  rewrite render_blocks, !loop_blocks_app, !last_flag_app, Fpre.
  rewrite (last_flag_items _ _ Hrun Hne), <- !app_assoc. f_equal.
  rewrite render_after_list by exact Hpost.
  destruct Hrun as [|l ls Hl Hls]; [congruence|].
  simpl. rewrite next_flag_item, loop_blocks_items by assumption.
  unfold emitted. rewrite Hl. reflexivity.
Qed.

Lemma list_run_blocks_witness :
  render ([str "p"] ++ [str "- a"; str "* b"] ++ [str ""; str "- c"])
  = render [str "p"] ++ [UL_OPEN] ++ map li_block [str "- a"; str "* b"]
    ++ [UL_CLOSE] ++ render [str ""; str "- c"].
Proof.
  apply (proj1 list_run_blocks [str "p"] [str "- a"; str "* b"] [str ""; str "- c"]).
  - discriminate.
  - repeat constructor.
  - vm_compute. discriminate.
  - vm_compute. discriminate.
Defined.

(** C9.  White space around the whole document does not change the
    output: for all white-space strings [w1] and [w2] (blank lines
    included), the output for [w1 ++ s ++ w2] is the output for [s], and
    the output for [s] is the output for [s] stripped. *)
Theorem surrounding_space_ignored (w1 s w2 : pystr) :
  all_space w1 = true -> all_space w2 = true ->
  format_diagnosis_to_html (w1 ++ s ++ w2) = format_diagnosis_to_html s
  /\ format_diagnosis_to_html s = format_diagnosis_to_html (strip s).
Proof.
  intros H1 H2. unfold format_diagnosis_to_html, final_state.
  now rewrite strip_surround, strip_idem by assumption.
Qed.

Lemma surrounding_space_ignored_witness :
  format_diagnosis_to_html ([NL; 32; 12288] ++ str "- a" ++ [9; NL; NL])
  = format_diagnosis_to_html (str "- a")
  /\ format_diagnosis_to_html (str "- a")
     = format_diagnosis_to_html (strip (str "- a")).
Proof.
  apply (surrounding_space_ignored [NL; 32; 12288] (str "- a") [9; NL; NL]);
    vm_compute; reflexivity.
Defined.

(** C10 (as the code has it).  In every output the blocks, that is the
    lines of the output, are well nested: the [<ul>] and [</ul>] blocks
    alternate, starting with [<ul>] and ending with [</ul>]; every [<li>]
    element block lies between a [<ul>] block and the [</ul>] block that
    closes it; every [<p>] element block lies outside; and there is no
    other block.  The text of a line is copied into its element as it is,
    tags included. *)
Theorem output_well_nested (text : pystr) :
  well_nested false (output_blocks (format_diagnosis_to_html text)) = true.
Proof.
  rewrite output_blocks_format.
  change (html_lines (final_state text)) with (render (split NL (strip text))).
  rewrite render_blocks, loop_nested.
  now destruct (last_flag false (split NL (strip text))).
Qed.

(** C10, the inputs ["- <p>x</p>"] and ["- <ul>"]: read on the text of the
    output, a [<p>] element lies inside the list, and a second [<ul>] opens
    inside the first and is never closed; the blocks are well nested all
    the same.  On ["- a\nb"] the text is well nested too. *)
Lemma literal_tags_break_text_nesting :
  format_diagnosis_to_html (str "- <p>x</p>")
  = str "<ul>" ++ [NL] ++ str "<li><p>x</p></li>" ++ [NL] ++ str "</ul>"
  /\ text_well_nested 0 (format_diagnosis_to_html (str "- <p>x</p>")) = false
  /\ well_nested false (output_blocks (format_diagnosis_to_html (str "- <p>x</p>")))
     = true
  /\ format_diagnosis_to_html (str "- <ul>")
     = str "<ul>" ++ [NL] ++ str "<li><ul></li>" ++ [NL] ++ str "</ul>"
  /\ text_well_nested 0 (format_diagnosis_to_html (str "- <ul>")) = false
  /\ text_well_nested 0 (format_diagnosis_to_html (str "- a" ++ [NL] ++ str "b"))
     = true.
Proof. vm_compute. repeat split. Qed.


(** * Further properties of the renderer *)

(** X1.  The [strip] of the whole text is absorbed by the loop: the output
    is the blocks the loop and the statement after it append over the lines
    of the raw text, joined by newlines. *)
Theorem document_strip_absorbed (text : pystr) :
  format_diagnosis_to_html text = join [NL] (render (split NL text)).
Proof. rewrite format_render. now rewrite render_split_strip. Qed.

(** X2.  A document given by its lines (none of which holds a newline)
    renders to the blocks of those lines, joined by newlines. *)
Theorem format_of_lines (lines : list pystr) :
  Forall (fun l => ~ In NL l) lines ->
  format_diagnosis_to_html (join [NL] lines) = join [NL] (render lines).
Proof.
  intros H. destruct lines as [|l ls]; [reflexivity|].
  rewrite format_render, render_split_strip.
  now rewrite split_join by (discriminate || assumption).
Qed.

Lemma format_of_lines_witness :
  format_diagnosis_to_html (join [NL] [str " - a"; str ""; str "b "])
  = join [NL] (render [str " - a"; str ""; str "b "]).
Proof.
  apply (format_of_lines [str " - a"; str ""; str "b "]).
  repeat constructor; intros H; not_in_literal H.
Defined.

(** X3.  The output depends on each line through its trimmed form only:
    two documents whose lines have the same trimmed forms (indentation,
    trailing blanks or a carriage return at the end of a line may differ)
    render to the same output. *)
Theorem format_by_trimmed_lines (lines lines' : list pystr) :
  Forall (fun l => ~ In NL l) lines -> Forall (fun l => ~ In NL l) lines' ->
  map strip lines = map strip lines' ->
  format_diagnosis_to_html (join [NL] lines)
  = format_diagnosis_to_html (join [NL] lines').
Proof.
  intros H H' E.
  assert (R : render lines = render lines').
  { rewrite !render_render_from. now apply render_from_ext. }
  destruct lines as [|l ls], lines' as [|l' ls']; try discriminate E; [reflexivity|].
  rewrite !format_render, !render_split_strip.
  rewrite !split_join by (discriminate || assumption). now rewrite R.
Qed.

Lemma format_by_trimmed_lines_witness :
  format_diagnosis_to_html (join [NL] [str "- a" ++ [13]; str "    * b" ++ [13]; [9; 13]; str "c"])
  = format_diagnosis_to_html (join [NL] [str "- a"; str "* b"; str ""; str "c"]).
Proof.
  apply (format_by_trimmed_lines
           [str "- a" ++ [13]; str "    * b" ++ [13]; [9; 13]; str "c"]
           [str "- a"; str "* b"; str ""; str "c"]).
  - repeat constructor; intros H; not_in_literal H.
  - repeat constructor; intros H; not_in_literal H.
  - vm_compute. reflexivity.
Defined.

(** X4.  A blank line that does not follow a list item changes nothing:
    the lines render as they do without it. *)
Theorem blank_line_outside_list (pre post : list pystr) (l : pystr) :
  classify l = Blank -> ends_outside pre ->
  render (pre ++ l :: post) = render (pre ++ post).
Proof.
  intros K Hpre. rewrite !render_render_from, !render_from_app.
  rewrite last_flag_ends_outside by exact Hpre.
  assert (F : match pre with [] => false | _ :: _ => false end = false)
    by now destruct pre.
  rewrite F, render_from_cons.
  apply classify_blank in K. now destruct (emitted_blank false l K) as [-> ->].
Qed.

Lemma blank_line_outside_list_witness :
  render ([str "a"] ++ str "  " :: [str "- b"]) = render ([str "a"] ++ [str "- b"]).
Proof.
  apply (blank_line_outside_list [str "a"] [str "- b"] (str "  ")).
  - vm_compute. reflexivity.
  - vm_compute. discriminate.
Defined.

(** X5.  A blank line between two runs of list items ends the first list
    and lets the second run start a list of its own: the two runs give two
    lists, each with its own [<ul>] and [</ul>]. *)
Theorem blank_line_splits_list (pre run1 run2 post : list pystr) (l : pystr) :
  run1 <> [] -> run2 <> [] -> all_items run1 -> all_items run2 ->
  classify l = Blank -> ends_outside pre -> starts_outside post ->
  render (pre ++ run1 ++ l :: run2 ++ post)
  = render pre ++ [UL_OPEN] ++ map li_block run1 ++ [UL_CLOSE]
    ++ [UL_OPEN] ++ map li_block run2 ++ [UL_CLOSE] ++ render post.
Proof.
  intros N1 N2 I1 I2 K Hpre Hpost.
  rewrite (render_run pre run1 (l :: run2 ++ post)); auto;
    [|simpl; rewrite K; discriminate].
  do 3 f_equal.
  change (l :: run2 ++ post) with ([l] ++ run2 ++ post).
  rewrite (render_run [l] run2 post); auto;
    [|unfold ends_outside; simpl; rewrite K; discriminate].
  rewrite render_render_from, render_from_blank; [reflexivity|].
  constructor; [now apply classify_blank | constructor].
Qed.

Lemma blank_line_splits_list_witness :
  render ([] ++ [str "- a"] ++ str "" :: [str "- b"] ++ [])
  = [str "<ul>"; str "<li>a</li>"; str "</ul>";
     str "<ul>"; str "<li>b</li>"; str "</ul>"].
Proof.
  apply (blank_line_splits_list [] [str "- a"] [str "- b"] [] (str ""));
    try discriminate; try (repeat constructor); exact I.
Defined.

(** X6.  Apart from the list markers, the blocks are the elements of the
    lines that are not blank, one per line and in the order of the lines:
    no line is dropped, merged with another or moved. *)
Theorem elements_in_line_order (text : pystr) :
  filter (fun b => negb (is_marker b)) (output_blocks (format_diagnosis_to_html text))
  = map element_of (filter non_blank (split NL text)).
Proof.
  rewrite output_blocks_format.
  change (html_lines (final_state text)) with (render (split NL (strip text))).
  rewrite render_split_strip, render_render_from. apply render_from_elements.
Qed.

(** X7.  No element is empty: the content of a [<li>] element and the
    content of a [<p>] element are never the empty string. *)
Theorem element_content_nonempty (line : pystr) :
  (classify line = ListItem ->
   element_of line = LI_OPEN ++ list_item_content line ++ LI_CLOSE
   /\ list_item_content line <> [])
  /\ (classify line = Paragraph ->
      element_of line = P_OPEN ++ re_sub_bold (strip line) ++ P_CLOSE
      /\ re_sub_bold (strip line) <> []).
Proof.
  split; intros K.
  - split; [unfold element_of; now rewrite K|]. now apply list_item_content_nonempty.
  - split; [unfold element_of; now rewrite K|]. apply re_sub_bold_nonempty.
    unfold classify in K. destruct (strip line); [discriminate K | discriminate].
Qed.

Lemma element_content_nonempty_witness :
  list_item_content (str "- ****") <> [] /\ re_sub_bold (strip (str "-")) <> [].
Proof.
  split.
  - apply (proj1 (element_content_nonempty (str "- ****"))). vm_compute. reflexivity.
  - apply (proj2 (element_content_nonempty (str "-"))). vm_compute. reflexivity.
Defined.

(** X8.  The output holds no empty line and no newline inside a block:
    split at its newlines it gives back exactly the blocks appended, each
    of them non-empty (and the empty output gives none). *)
Theorem output_lines_are_blocks (text : pystr) :
  output_blocks (format_diagnosis_to_html text) = html_lines (final_state text)
  /\ Forall (fun b => b <> [] /\ ~ In NL b) (html_lines (final_state text)).
Proof.
  split; [apply output_blocks_format|].
  change (Forall is_block (render (split NL (strip text)))).
  rewrite render_blocks. apply Forall_app. split.
  - apply loop_blocks_is_block, split_no_sep.
  - destruct (last_flag _ _); auto with blocks.
Qed.

(** X9.  The output is empty exactly when the text is white space only:
    a text with anything else in it always gives at least one block. *)
Theorem empty_output_iff_blank (text : pystr) :
  format_diagnosis_to_html text = [] <-> all_space text = true.
Proof.
  split; [|apply format_all_space]. intros E.
  rewrite format_render, render_split_strip in E.
  apply join_nil in E.
  - apply render_nil_blank in E. apply blank_lines_all_space.
    eapply Forall_impl; [|exact E]. intros l Hl. now apply strip_all_space.
  - rewrite render_blocks. apply Forall_app. split.
    + apply loop_blocks_is_block, split_no_sep.
    + destruct (last_flag _ _); auto with blocks.
Qed.

(** X10.  No list is empty: in every output a [<ul>] is followed at once
    by a [<li>] element and a [</ul>] comes right after a [<li>] element
    (and the blocks are well nested as in C10). *)
Theorem output_lists_have_items (text : pystr) :
  lists_have_items Outside (output_blocks (format_diagnosis_to_html text)) = true.
Proof.
  rewrite output_blocks_format.
  change (html_lines (final_state text)) with (render (split NL (strip text))).
  rewrite render_blocks. change Outside with (pos_of_flag false).
  rewrite loop_items. now destruct (last_flag false (split NL (strip text))).
Qed.

(** X11.  The renderer writes nothing of its own but tags and newlines:
    every character of the output is a character of the input text, a
    newline, or one of the characters of the tags.  In particular nothing is
    escaped. *)
Theorem output_characters (text : pystr) (c : char) :
  In c (format_diagnosis_to_html text) ->
  In c text \/ c = NL \/ In c TAG_CHARS.
Proof.
  rewrite format_render. intros H.
  apply join_In in H as [[<-|[]]|[blk [Hb Hc]]]; [now right; left|].
  rewrite render_blocks in Hb. apply in_app_or in Hb as [Hb|Hb].
  - destruct (loop_blocks_In c _ _ _ Hb Hc) as [[l [Hl Hlc]]|Ht]; [|now right; right].
    left. apply strip_In. now apply (split_In NL c _ l).
  - destruct (last_flag _ _); [|destruct Hb].
    destruct Hb as [<-|[]]. right. right. in_tag_chars Hc.
Qed.

Lemma output_characters_witness :
  In 98 (str "**x**") \/ 98 = NL \/ In 98 TAG_CHARS.
Proof.
  apply (output_characters (str "**x**") 98). vm_compute. tauto.
Defined.
